(** * JWKS server (main.go): key registry, discovery document, token issuance

    A shallow embedding of [main.go] and of the library calls it relies on
    ([time], [math/big], [encoding/base64], [encoding/json], [net/http],
    [jwt]), followed by the properties of the key lifecycle and of the
    issuance path. *)

From Stdlib Require Import ZArith List Ascii String Lia Bool.
From stdpp Require Import base gmap strings list.

Set Warnings "-register-all".
Local Open Scope Z_scope.

(** ** time.Time and time.Duration

    An instant is its number of nanoseconds since the Unix epoch and a
    duration is a number of nanoseconds; both are unbounded integers here
    (the int64 range of the runtime is not modelled). *)
Module GoTime.

Definition Time := Z.
Definition Duration := Z.

Definition Nanosecond : Duration := 1.
Definition Second : Duration := 1000000000 * Nanosecond.
Definition Minute : Duration := 60 * Second.
Definition Hour : Duration := 60 * Minute.

(** [t.Add(d)] *)
Definition Add (t : Time) (d : Duration) : Time := t + d.

(** [t.Before(u)] *)
Definition Before (t u : Time) : bool := t <? u.

(** [t.Unix()]: whole seconds since the epoch, rounded towards minus
    infinity (the nanosecond part of a Time is never negative). *)
Definition Unix (t : Time) : Z := t / Second.

End GoTime.

(** ** math/big: the Bytes method of Int

    [nat.bytes] writes every limb of the magnitude into a buffer of
    [len(x.abs) * 8] bytes, most significant byte first, and returns the
    buffer without its leading zero bytes. A byte is an integer in
    [0, 256). *)
Module BigInt.

Definition _S : Z := 8.

(** Number of 64-bit limbs of a normalised magnitude. *)
Definition limbs (a : Z) : Z :=
  if a =? 0 then 0 else Z.log2 a / 64 + 1.

(** [n] bytes of [v], least significant first. *)
Fixpoint le_bytes (n : nat) (v : Z) : list Z :=
  match n with
  | O => []
  | S n' => Z.land v 255 :: le_bytes n' (Z.shiftr v 8)
  end.

Fixpoint strip_zeros (buf : list Z) : list Z :=
  match buf with
  | b :: rest => if b =? 0 then strip_zeros rest else buf
  | [] => []
  end.

Definition Bytes (x : Z) : list Z :=
  let a := Z.abs x in
  strip_zeros (rev (le_bytes (Z.to_nat (limbs a * _S)) a)).

(** The unsigned integer a big-endian byte sequence denotes. *)
Definition be_value (bs : list Z) : Z :=
  fold_left (fun acc b => acc * 256 + b) bs 0.

Definition is_byte (b : Z) : Prop := 0 <= b < 256.

End BigInt.

(** ** encoding/base64 *)
Module Base64.

Record Encoding := {
  encode : string;           (* the 64-character alphabet *)
  padChar : option ascii     (* None is NoPadding *)
}.

Definition encodeStd : string :=
  "ABCDEFGHIJKLMNOPQRSTUVWXYZabcdefghijklmnopqrstuvwxyz0123456789+/".
Definition encodeURL : string :=
  "ABCDEFGHIJKLMNOPQRSTUVWXYZabcdefghijklmnopqrstuvwxyz0123456789-_".

Definition StdPadding : ascii := "="%char.

Definition URLEncoding : Encoding :=
  {| encode := encodeURL; padChar := Some StdPadding |}.
(** [URLEncoding.WithPadding(NoPadding)] *)
Definition RawURLEncoding : Encoding :=
  {| encode := encodeURL; padChar := None |}.

(** Indexing an alphabet. *)
Definition lookup (alphabet : string) (i : Z) : ascii :=
  match String.get (Z.to_nat i) alphabet with
  | Some c => c
  | None => "000"%char
  end.

(** [enc.encode[i]] *)
Definition at_ (enc : Encoding) (i : Z) : ascii := lookup (encode enc) i.

Definition pad (enc : Encoding) (n : nat) : list ascii :=
  match padChar enc with
  | Some c => repeat c n
  | None => []
  end.

(** [enc.Encode]: full groups of three bytes give four characters; a
    remainder of one or two bytes gives two or three characters and the
    padding, if the encoding has any. *)
Fixpoint Encode (enc : Encoding) (src : list Z) : list ascii :=
  match src with
  | [] => []
  | [b0] =>
      let val := Z.shiftl b0 16 in
      [at_ enc (Z.land (Z.shiftr val 18) 63);
       at_ enc (Z.land (Z.shiftr val 12) 63)] ++ pad enc 2
  | [b0; b1] =>
      let val := Z.lor (Z.shiftl b0 16) (Z.shiftl b1 8) in
      [at_ enc (Z.land (Z.shiftr val 18) 63);
       at_ enc (Z.land (Z.shiftr val 12) 63);
       at_ enc (Z.land (Z.shiftr val 6) 63)] ++ pad enc 1
  | b0 :: b1 :: b2 :: rest =>
      let val := Z.lor (Z.lor (Z.shiftl b0 16) (Z.shiftl b1 8)) b2 in
      [at_ enc (Z.land (Z.shiftr val 18) 63);
       at_ enc (Z.land (Z.shiftr val 12) 63);
       at_ enc (Z.land (Z.shiftr val 6) 63);
       at_ enc (Z.land val 63)] ++ Encode enc rest
  end.

Definition EncodeToString (enc : Encoding) (src : list Z) : string :=
  string_of_list_ascii (Encode enc src).

(** The encoding as RFC 4648 words it, for the comparison with [Encode]:
    the input is a stream of bits, most significant bit of each byte
    first; it is cut into groups of six bits, the last group filled up
    with zero bits; each group indexes the alphabet. No padding character
    is added. *)
Definition byte_bits (b : Z) : list bool :=
  map (fun i => Z.testbit b (Z.of_nat i)) [7; 6; 5; 4; 3; 2; 1; 0]%nat.

Definition bits_value (bs : list bool) : Z :=
  fold_left (fun acc (b : bool) => 2 * acc + (if b then 1 else 0)) bs 0.

Fixpoint sextets (fuel : nat) (bits : list bool) : list Z :=
  match fuel with
  | O => []
  | S fuel' =>
      match bits with
      | [] => []
      | _ =>
          let group := firstn 6 bits in
          let filled := group ++ repeat false (6 - length group) in
          bits_value filled :: sextets fuel' (skipn 6 bits)
      end
  end.

Definition rfc4648_unpadded (alphabet : string) (src : list Z) : string :=
  let bits := concat (map byte_bits src) in
  string_of_list_ascii (map (lookup alphabet) (sextets (length bits) bits)).

End Base64.

(** ** Slices

    A Go slice is either nil or a (possibly empty) sequence; the two are
    told apart by encoding/json. *)
Module Slice.

Inductive t (A : Type) : Type :=
| Nil
| Of (elems : list A).
Arguments Nil {A}.
Arguments Of {A} elems.

Definition elems {A} (s : t A) : list A :=
  match s with
  | Nil => []
  | Of l => l
  end.

(** [append(s, x)] *)
Definition append {A} (s : t A) (x : A) : t A := Of (elems s ++ [x]).

(** [len(s)] *)
Definition len {A} (s : t A) : nat := length (elems s).

End Slice.

(** ** encoding/json: the values the two handlers marshal *)
Module Json.

Inductive value : Type :=
| Null
| Str (s : string)
| Num (n : Z)
| Arr (items : list value)
| Obj (fields : list (string * value)).

(** A slice marshals to an array, a nil slice to null. *)
Definition of_slice {A} (f : A -> value) (s : Slice.t A) : value :=
  match s with
  | Slice.Nil => Null
  | Slice.Of l => Arr (map f l)
  end.

Definition is_array (v : value) : bool :=
  match v with
  | Arr _ => true
  | _ => false
  end.

(** Field lookup in an object. *)
Fixpoint field (name : string) (fields : list (string * value)) : option value :=
  match fields with
  | [] => None
  | (k, v) :: rest => if String.eqb k name then Some v else field name rest
  end.

End Json.

(** ** crypto/rsa key material *)
Module Rsa.

Record PublicKey := { N : Z; E : Z }.
Record PrivateKey := { Public : PublicKey; D : Z }.

End Rsa.

(** ** jwt: tokens before signing *)
Module Jwt.

Inductive SigningMethod := SigningMethodRS256.

Definition Alg (m : SigningMethod) : string :=
  match m with
  | SigningMethodRS256 => "RS256"
  end.

(** The values a claim of this program takes. *)
Inductive claim :=
| ClaimStr (s : string)
| ClaimInt (n : Z).

Record Token := {
  Method : SigningMethod;
  Header : gmap string string;
  Claims : gmap string claim
}.

(** [jwt.NewWithClaims(method, claims)] *)
Definition NewWithClaims (m : SigningMethod) (claims : gmap string claim) : Token :=
  {| Method := m;
     Header := <["typ" := "JWT"]> (<["alg" := Alg m]> ∅);
     Claims := claims |}.

(** [token.Header[k] = v] *)
Definition SetHeader (tok : Token) (k v : string) : Token :=
  {| Method := Method tok;
     Header := <[k := v]> (Header tok);
     Claims := Claims tok |}.

End Jwt.

(** ** net/http: requests and the response writer *)
Module Http.

Record Request := {
  Method : string;
  Query : gmap string (list string)     (* r.URL.Query() *)
}.

(** [url.Values.Get]: the first value of the key, the empty string when
    the key is absent or has no value. *)
Definition Get (q : gmap string (list string)) (key : string) : string :=
  match q !! key with
  | Some (v :: _) => v
  | _ => ""
  end.

Inductive chunk :=
| Text (line : string)                  (* fmt.Fprintln *)
| JsonDoc (v : Json.value).             (* json.Encoder.Encode *)

Record ResponseWriter := {
  header : gmap string string;
  status : option Z;                    (* None: WriteHeader not yet called *)
  body : list chunk
}.

(** [httptest.NewRecorder()] *)
Definition NewRecorder : ResponseWriter :=
  {| header := ∅; status := None; body := [] |}.

(** [w.Header().Set(k, v)] *)
Definition HeaderSet (w : ResponseWriter) (k v : string) : ResponseWriter :=
  {| header := <[k := v]> (header w); status := status w; body := body w |}.

(** [w.Header().Del(k)] *)
Definition HeaderDel (w : ResponseWriter) (k : string) : ResponseWriter :=
  {| header := delete k (header w); status := status w; body := body w |}.

(** [w.WriteHeader(code)]: the first call fixes the status. *)
Definition WriteHeader (w : ResponseWriter) (code : Z) : ResponseWriter :=
  match status w with
  | Some _ => w
  | None => {| header := header w; status := Some code; body := body w |}
  end.

(** [w.Write]: an implicit [WriteHeader(200)] comes first. *)
Definition Write (w : ResponseWriter) (c : chunk) : ResponseWriter :=
  let w' := WriteHeader w 200 in
  {| header := header w'; status := status w'; body := body w' ++ [c] |}.

(** [http.Error(w, msg, code)] *)
Definition Error (w : ResponseWriter) (msg : string) (code : Z) : ResponseWriter :=
  let w := HeaderDel w "Content-Length" in
  let w := HeaderSet w "Content-Type" "text/plain; charset=utf-8" in
  let w := HeaderSet w "X-Content-Type-Options" "nosniff" in
  let w := WriteHeader w code in
  Write w (Text msg).

(** [json.NewEncoder(w).Encode(v)] *)
Definition Encode (w : ResponseWriter) (v : Json.value) : ResponseWriter :=
  Write w (JsonDoc v).

End Http.

(** ** main.go *)

Import GoTime.

Definition error := string.

(** [type KeyPair struct]. The two pointers are taken to be non-nil, as
    they are in every key pair [generateKeyPair] builds. *)
Record KeyPair := {
  Kid : string;
  PrivateKey : Rsa.PrivateKey;
  PublicKey : Rsa.PublicKey;
  ExpiresAt : Time
}.

(** [type JWK struct], fields in declaration order. *)
Record JWK := {
  Kty : string;
  JKid : string;
  Use : string;
  JAlg : string;
  JN : string;
  JE : string
}.

(** [type JWKS struct] *)
Record JWKS := { Keys : Slice.t JWK }.

(** What the program reads from outside: the clock, the entropy source
    behind [rsa.GenerateKey] and the identifiers [uuid.New] hands out. Each
    reading of the clock and each draw advances a counter. *)
Record World := {
  wall : nat -> Time;
  reads : nat;
  rsaGenerateKey : nat -> Rsa.PrivateKey + error;
  uuidNew : nat -> string;
  draws : nat
}.

(** The package-level variables. *)
Record Globals := {
  validKey : option KeyPair;
  expiredKey : option KeyPair;
  generateKeyPairFunc : Time -> World -> (option KeyPair * option error) * World;
  signFunc : Rsa.PrivateKey -> Jwt.SigningMethod -> Jwt.Token -> string * option error
}.

Record State := { globals : Globals; world : World }.

(** A state monad over [State]. *)
Definition M (A : Type) : Type := State -> A * State.

Definition ret {A} (a : A) : M A := fun s => (a, s).
Definition bind {A B} (m : M A) (k : A -> M B) : M B :=
  fun s => let (a, s') := m s in k a s'.

Notation "x <- m ;; k" := (bind m (fun x => k))
  (at level 100, m at next level, right associativity).
Notation "m ;;; k" := (bind m (fun _ => k))
  (at level 100, right associativity).

Definition getGlobals : M Globals := fun s => (globals s, s).

(** [time.Now()] *)
Definition time_Now : M Time :=
  fun s =>
    let w := world s in
    (wall w (reads w),
     {| globals := globals s;
        world := {| wall := wall w; reads := S (reads w);
                    rsaGenerateKey := rsaGenerateKey w; uuidNew := uuidNew w;
                    draws := draws w |} |}).

Definition draw (w : World) : World :=
  {| wall := wall w; reads := reads w;
     rsaGenerateKey := rsaGenerateKey w; uuidNew := uuidNew w;
     draws := S (draws w) |}.

(** [func generateKeyPair(expiresAt time.Time)], returning a key pair
    pointer and an error. *)
Definition generateKeyPair (expiresAt : Time) (w : World)
  : (option KeyPair * option error) * World :=
  match rsaGenerateKey w (draws w) with
  | inr err => ((None, Some err), draw w)
  | inl key =>
      let w1 := draw w in
      let id := uuidNew w1 (draws w1) in
      ((Some {| Kid := id; PrivateKey := key; PublicKey := Rsa.Public key;
                ExpiresAt := expiresAt |}, None),
       draw w1)
  end.

(** Calling the function held in [generateKeyPairFunc]. *)
Definition callGenerate (expiresAt : Time) : M (option KeyPair * option error) :=
  fun s =>
    let (r, w') := generateKeyPairFunc (globals s) expiresAt (world s) in
    (r, {| globals := globals s; world := w' |}).

Definition setValidKey (k : option KeyPair) : M unit :=
  fun s =>
    let g := globals s in
    (tt, {| globals := {| validKey := k; expiredKey := expiredKey g;
                          generateKeyPairFunc := generateKeyPairFunc g;
                          signFunc := signFunc g |};
            world := world s |}).

Definition setExpiredKey (k : option KeyPair) : M unit :=
  fun s =>
    let g := globals s in
    (tt, {| globals := {| validKey := validKey g; expiredKey := k;
                          generateKeyPairFunc := generateKeyPairFunc g;
                          signFunc := signFunc g |};
            world := world s |}).

(** [func (kp *KeyPair) toJWK() JWK] *)
Definition toJWK (kp : KeyPair) : JWK :=
  let n := Base64.EncodeToString Base64.RawURLEncoding
             (BigInt.Bytes (Rsa.N (PublicKey kp))) in
  let e := Base64.EncodeToString Base64.RawURLEncoding
             (BigInt.Bytes (Rsa.E (PublicKey kp))) in
  {| Kty := "RSA"; JKid := Kid kp; Use := "sig"; JAlg := "RS256";
     JN := n; JE := e |}.

(** The JSON form of the two structs, by their field tags. *)
Definition marshalJWK (k : JWK) : Json.value :=
  Json.Obj [("kty", Json.Str (Kty k)); ("kid", Json.Str (JKid k));
            ("use", Json.Str (Use k)); ("alg", Json.Str (JAlg k));
            ("n", Json.Str (JN k)); ("e", Json.Str (JE k))].

Definition marshalJWKS (d : JWKS) : Json.value :=
  Json.Obj [("keys", Json.of_slice marshalJWK (Keys d))].

(** [func jwksHandler(w http.ResponseWriter, r *http.Request)] *)
Definition jwksHandler (w : Http.ResponseWriter) (r : Http.Request)
  : M Http.ResponseWriter :=
  if negb (String.eqb (Http.Method r) "GET") then
    ret (Http.Error w "Method not allowed" 405)
  else
    let w := Http.HeaderSet w "Content-Type" "application/json" in
    g <- getGlobals ;;
    keys <- match validKey g with
            | Some vk =>
                now <- time_Now ;;
                if Before now (ExpiresAt vk)
                then ret (Slice.append Slice.Nil (toJWK vk))
                else ret Slice.Nil
            | None => ret Slice.Nil
            end ;;
    ret (Http.Encode w (marshalJWKS {| Keys := keys |})).

(** [authHandler], lines 87 to 96: the key to sign with and the expiry
    claim; [None] is the branch that answers "No keys available". *)
Definition selectKey (g : Globals) (r : Http.Request) : M (option (KeyPair * Z)) :=
  match negb (String.eqb (Http.Get (Http.Query r) "expired") ""),
        expiredKey g, validKey g with
  | true, Some ek, _ => ret (Some (ek, Unix (ExpiresAt ek)))
  | _, _, Some vk =>
      now <- time_Now ;;
      ret (Some (vk, Unix (Add now Hour)))
  | _, _, None => ret None
  end.

(** [authHandler], lines 98 to 100: the claims and the unsigned token. *)
Definition newToken (keyToUse : KeyPair) (exp : Z) : M Jwt.Token :=
  now <- time_Now ;;
  let claims : gmap string Jwt.claim :=
    <["sub" := Jwt.ClaimStr "user123"]>
      (<["exp" := Jwt.ClaimInt exp]>
         (<["iat" := Jwt.ClaimInt (Unix now)]> ∅)) in
  let token := Jwt.NewWithClaims Jwt.SigningMethodRS256 claims in
  ret (Jwt.SetHeader token "kid" (Kid keyToUse)).

(** [func authHandler(w http.ResponseWriter, r *http.Request)] *)
Definition authHandler (w : Http.ResponseWriter) (r : Http.Request)
  : M Http.ResponseWriter :=
  if negb (String.eqb (Http.Method r) "POST") then
    ret (Http.Error w "Method not allowed" 405)
  else
    let w := Http.HeaderSet w "Content-Type" "application/json" in
    g <- getGlobals ;;
    selected <- selectKey g r ;;
    match selected with
    | None => ret (Http.Error w "No keys available" 500)
    | Some (keyToUse, exp) =>
        token <- newToken keyToUse exp ;;
        let (tokenString, err) :=
          signFunc g (PrivateKey keyToUse) Jwt.SigningMethodRS256 token in
        match err with
        | Some _ => ret (Http.Error w "Failed to sign token" 500)
        | None =>
            ret (Http.Encode w (Json.Obj [("token", Json.Str tokenString)]))
        end
    end.

(** [func initKeys() error] *)
Definition initKeys : M (option error) :=
  t1 <- time_Now ;;
  r1 <- callGenerate (Add t1 (24 * Hour)) ;;
  setValidKey (fst r1) ;;;
  match snd r1 with
  | Some err => ret (Some err)
  | None =>
      t2 <- time_Now ;;
      r2 <- callGenerate (Add t2 (- Hour)) ;;
      setExpiredKey (fst r2) ;;;
      ret (snd r2)
  end.

(** The two handlers [main] registers. *)
Inductive Endpoint := JwksEndpoint | AuthEndpoint.

Definition handler (e : Endpoint)
  : Http.ResponseWriter -> Http.Request -> M Http.ResponseWriter :=
  match e with
  | JwksEndpoint => jwksHandler
  | AuthEndpoint => authHandler
  end.

(** How [main] ends: [log.Fatal] after a failed [initKeys], or the call of
    [http.ListenAndServe] with the routes registered before it. *)
Inductive Exit :=
| LogFatal (prefix : string) (err : error)
| ListenAndServe (addr : string) (routes : list (string * Endpoint)).

(** [func main()]; the line printed before serving is left out. *)
Definition main : M Exit :=
  err <- initKeys ;;
  match err with
  | Some e => ret (LogFatal "Failed to generate keys:" e)
  | None =>
      ret (ListenAndServe ":8080"
             [("/.well-known/jwks.json", JwksEndpoint); ("/auth", AuthEndpoint)])
  end.

(** Requests answered one after the other, each on a fresh writer. *)
Fixpoint serveAll (reqs : list (Endpoint * Http.Request))
  : M (list Http.ResponseWriter) :=
  match reqs with
  | [] => ret []
  | (e, r) :: rest =>
      w <- handler e Http.NewRecorder r ;;
      ws <- serveAll rest ;;
      ret (w :: ws)
  end.

(** ** Reading an answer *)

(** The two failures of issuance, as the handler reports them. *)
Definition NoKeyAvailable (w : Http.ResponseWriter) : Prop :=
  Http.status w = Some 500 /\ Http.body w = [Http.Text "No keys available"].

Definition SigningFailure (w : Http.ResponseWriter) : Prop :=
  Http.status w = Some 500 /\ Http.body w = [Http.Text "Failed to sign token"].

(** The token of a successful answer. *)
Definition issuedToken (w : Http.ResponseWriter) : option string :=
  match Http.status w, Http.body w with
  | Some 200, [Http.JsonDoc (Json.Obj fields)] =>
      match Json.field "token" fields with
      | Some (Json.Str s) => Some s
      | _ => None
      end
  | _, _ => None
  end.

(** The value under "keys" of a discovery answer, and its records. *)
Definition documentKeys (w : Http.ResponseWriter) : option Json.value :=
  match Http.body w with
  | [Http.JsonDoc (Json.Obj fields)] => Json.field "keys" fields
  | _ => None
  end.

Definition records (w : Http.ResponseWriter) : list Json.value :=
  match documentKeys w with
  | Some (Json.Arr items) => items
  | _ => []
  end.

Definition recordKid (v : Json.value) : option string :=
  match v with
  | Json.Obj fields =>
      match Json.field "kid" fields with
      | Some (Json.Str s) => Some s
      | _ => None
      end
  | _ => None
  end.

(** The document has a record carrying the identifier of [kp]. *)
Definition hasRecordFor (w : Http.ResponseWriter) (kp : KeyPair) : Prop :=
  In (Some (Kid kp)) (map recordKid (records w)).

(** The writer once the handler has announced a JSON body. *)
Definition jsonWriter (w : Http.ResponseWriter) : Http.ResponseWriter :=
  Http.HeaderSet w "Content-Type" "application/json".

(** The next reading of the clock. *)
Definition clockNow (s : State) : Time := wall (world s) (reads (world s)).

Definition getRequest : Http.Request :=
  {| Http.Method := "GET"; Http.Query := ∅ |}.

(** A discovery request and an issuance request, each on a fresh writer. *)
Definition discover (s : State) : Http.ResponseWriter :=
  fst (jwksHandler Http.NewRecorder getRequest s).

Definition issue (s : State) (r : Http.Request) : Http.ResponseWriter :=
  fst (authHandler Http.NewRecorder r s).

(** What [authHandler] answers for an outcome of the signing capability. *)
Definition answer (signed : string * option error) : Http.ResponseWriter :=
  match signed with
  | (_, Some _) =>
      Http.Error (jsonWriter Http.NewRecorder) "Failed to sign token" 500
  | (tokenString, None) =>
      Http.Encode (jsonWriter Http.NewRecorder)
        (Json.Obj [("token", Json.Str tokenString)])
  end.

(** A key is at hand for the request. *)
Definition keyAvailable (g : Globals) (r : Http.Request) : Prop :=
  validKey g <> None \/
  (Http.Get (Http.Query r) "expired" <> "" /\ expiredKey g <> None).

Inductive Scenario := normal | forcedExpiredKey.

(** The scenario a request asks for. *)
Definition scenario (r : Http.Request) : Scenario :=
  if String.eqb (Http.Get (Http.Query r) "expired") "" then normal
  else forcedExpiredKey.

Definition withSignFunc
    (f : Rsa.PrivateKey -> Jwt.SigningMethod -> Jwt.Token -> string * option error)
    (s : State) : State :=
  {| globals := {| validKey := validKey (globals s);
                   expiredKey := expiredKey (globals s);
                   generateKeyPairFunc := generateKeyPairFunc (globals s);
                   signFunc := f |};
     world := world s |}.

Definition withClock (now : Time) (s : State) : State :=
  {| globals := globals s;
     world := {| wall := fun _ => now; reads := reads (world s);
                 rsaGenerateKey := rsaGenerateKey (world s);
                 uuidNew := uuidNew (world s); draws := draws (world s) |} |}.

(** A big-endian byte sequence of [v] that is as short as any. *)
Definition minimalBigEndian (v : Z) (bs : list Z) : Prop :=
  Forall BigInt.is_byte bs /\
  BigInt.be_value bs = v /\
  (forall b rest, bs = b :: rest -> b <> 0) /\
  (forall other, Forall BigInt.is_byte other -> BigInt.be_value other = v ->
                 (length bs <= length other)%nat).

Definition hasChar (c : ascii) (s : string) : Prop :=
  In c (list_ascii_of_string s).

(** ** The statements of the specification that are compared with the code *)

(** Expiry filtering over both slots of the registry. *)
Definition expiryFiltering (s : State) : Prop :=
  forall kp,
    validKey (globals s) = Some kp \/ expiredKey (globals s) = Some kp ->
    (hasRecordFor (discover s) kp <-> clockNow s < ExpiresAt kp).

(** A forced-expired request without an expired key fails. *)
Definition forcedFailsWithoutExpiredKey (s : State) (r : Http.Request) : Prop :=
  Http.Method r = "POST" ->
  scenario r = forcedExpiredKey ->
  expiredKey (globals s) = None ->
  NoKeyAvailable (issue s r) /\ issuedToken (issue s r) = None.

(** The expiry claim of a successful issuance, by scenario. *)
Definition expiryClaimByScenario (s : State) (r : Http.Request) : Prop :=
  Http.Method r = "POST" ->
  issuedToken (issue s r) <> None ->
  exists k exp s1 tok,
    selectKey (globals s) r s = (Some (k, exp), s1) /\
    fst (newToken k exp s1) = tok /\
    match scenario r with
    | normal =>
        Jwt.Claims tok !! "exp" = Some (Jwt.ClaimInt (Unix (Add (clockNow s) Hour)))
    | forcedExpiredKey =>
        exists ek, expiredKey (globals s) = Some ek /\
          Jwt.Claims tok !! "exp" = Some (Jwt.ClaimInt (Unix (ExpiresAt ek)))
    end.

(** The header identifier of a successful issuance, by scenario. *)
Definition headerKidByScenario (s : State) (r : Http.Request) : Prop :=
  Http.Method r = "POST" ->
  issuedToken (issue s r) <> None ->
  exists k exp s1 tok,
    selectKey (globals s) r s = (Some (k, exp), s1) /\
    fst (newToken k exp s1) = tok /\
    Jwt.Header tok !! "kid" = Some (Kid k) /\
    match scenario r with
    | normal => validKey (globals s) = Some k
    | forcedExpiredKey => expiredKey (globals s) = Some k
    end.

(** The discovery answer has an array under "keys". *)
Definition keysIsArray (s : State) : Prop :=
  exists items, documentKeys (discover s) = Some (Json.Arr items).

(** ** Sample data *)
Module Sample.

Definition key1 : Rsa.PrivateKey :=
  {| Rsa.Public := {| Rsa.N := 3233; Rsa.E := 17 |}; Rsa.D := 2753 |}.
Definition key2 : Rsa.PrivateKey :=
  {| Rsa.Public := {| Rsa.N := 3127; Rsa.E := 3 |}; Rsa.D := 2011 |}.

Definition T0 : Time := 7200 * Second.

Definition uuids (i : nat) : string :=
  if Nat.eqb i 1 then "kid-active" else "kid-expired".

Definition entropy (i : nat) : Rsa.PrivateKey + error :=
  if Nat.eqb i 0 then inl key1 else inl key2.

Definition world0 : World :=
  {| wall := fun _ => T0; reads := 0; rsaGenerateKey := entropy;
     uuidNew := uuids; draws := 0 |}.

(** A signer that answers with the identifier in the header. *)
Definition signKid (k : Rsa.PrivateKey) (m : Jwt.SigningMethod) (t : Jwt.Token)
  : string * option error :=
  (match Jwt.Header t !! "kid" with Some id => id | None => "" end, None).

Definition signBroken (k : Rsa.PrivateKey) (m : Jwt.SigningMethod) (t : Jwt.Token)
  : string * option error :=
  ("", Some "sign failure").

Definition generateBroken (t : Time) (w : World)
  : (option KeyPair * option error) * World :=
  ((None, Some "generation failure"), w).

Definition empty : State :=
  {| globals := {| validKey := None; expiredKey := None;
                   generateKeyPairFunc := generateKeyPair;
                   signFunc := signKid |};
     world := world0 |}.

(** The registry after [initKeys] at [T0]. *)
Definition started : State := snd (initKeys empty).

Definition active : KeyPair :=
  {| Kid := "kid-active"; PrivateKey := key1; PublicKey := Rsa.Public key1;
     ExpiresAt := Add T0 (24 * Hour) |}.

Definition expired : KeyPair :=
  {| Kid := "kid-expired"; PrivateKey := key2; PublicKey := Rsa.Public key2;
     ExpiresAt := Add T0 (- Hour) |}.

(** Only the active key is set. *)
Definition activeOnly : State :=
  {| globals := {| validKey := Some active; expiredKey := None;
                   generateKeyPairFunc := generateKeyPair;
                   signFunc := signKid |};
     world := world0 |}.

Definition post : Http.Request :=
  {| Http.Method := "POST"; Http.Query := ∅ |}.

Definition postExpired : Http.Request :=
  {| Http.Method := "POST"; Http.Query := {[ "expired" := ["true"] ]} |}.

Definition postExpiredOne : Http.Request :=
  {| Http.Method := "POST"; Http.Query := {[ "expired" := ["1"] ]} |}.

End Sample.

(** ** Further readings of an answer and of the state *)

Definition MethodNotAllowed (w : Http.ResponseWriter) : Prop :=
  Http.status w = Some 405 /\ Http.body w = [Http.Text "Method not allowed"].

Definition contentType (w : Http.ResponseWriter) : option string :=
  Http.header w !! "Content-Type".

(** The same key pair with other private material. *)
Definition withPrivateKey (k : Rsa.PrivateKey) (kp : KeyPair) : KeyPair :=
  {| Kid := Kid kp; PrivateKey := k; PublicKey := PublicKey kp;
     ExpiresAt := ExpiresAt kp |}.

(** Two states a discovery request cannot tell apart: the same clock, and
    active keys that agree on all but their private material. *)
Definition samePublicView (s s' : State) : Prop :=
  clockNow s = clockNow s' /\
  match validKey (globals s), validKey (globals s') with
  | Some vk, Some vk' =>
      Kid vk = Kid vk' /\ PublicKey vk = PublicKey vk' /\
      ExpiresAt vk = ExpiresAt vk'
  | None, None => True
  | _, _ => False
  end.



(** From [s] to [s'] nothing changed but the number of clock readings,
    which grew by at most [n]. *)
Definition onlyClockRead (n : nat) (s s' : State) : Prop :=
  globals s' = globals s /\
  wall (world s') = wall (world s) /\
  rsaGenerateKey (world s') = rsaGenerateKey (world s) /\
  uuidNew (world s') = uuidNew (world s) /\
  draws (world s') = draws (world s) /\
  (reads (world s) <= reads (world s') <= reads (world s) + n)%nat.

(** [enc.decodeMap] of encoding/base64: the index of a character in the
    alphabet, if it has one. *)
Fixpoint decodeMapFrom (alphabet : string) (i : Z) (c : ascii) : option Z :=
  match alphabet with
  | EmptyString => None
  | String a rest =>
      if Ascii.eqb a c then Some i else decodeMapFrom rest (i + 1) c
  end.

Definition decodeMap (alphabet : string) (c : ascii) : option Z :=
  decodeMapFrom alphabet 0 c.

(** The six bits of a base64 digit, most significant first. *)
Definition six (x : Z) : list bool := map (Z.testbit x) [5; 4; 3; 2; 1; 0].

(** An answer has been written: a status among those the handlers use
    and a body of one chunk. *)
Definition answered (w : Http.ResponseWriter) : Prop :=
  (Http.status w = Some 200 \/ Http.status w = Some 405 \/
   Http.status w = Some 500) /\
  length (Http.body w) = 1%nat.

(** * Properties *)

(** ** Big-endian bytes of a magnitude *)
Module BigIntFacts.
Import BigInt.

Lemma be_value_app (l : list Z) (b : Z) :
  be_value (l ++ [b]) = be_value l * 256 + b.
Proof. unfold be_value. rewrite fold_left_app. reflexivity. Qed.

Lemma le_bytes_length (n : nat) (v : Z) : length (le_bytes n v) = n.
Proof. revert v. induction n as [|n IH]; intros v; simpl; [reflexivity|]. now rewrite IH. Qed.

Lemma le_bytes_is_byte (n : nat) (v : Z) : Forall is_byte (le_bytes n v).
Proof.
  revert v. induction n as [|n IH]; intros v; simpl; constructor; [|apply IH].
  unfold is_byte. change 255 with (Z.ones 8). rewrite Z.land_ones by lia.
  change (2 ^ 8) with 256. apply Z.mod_pos_bound. lia.
Qed.

Lemma le_bytes_value (n : nat) (v : Z) :
  0 <= v -> be_value (rev (le_bytes n v)) = v mod 256 ^ Z.of_nat n.
Proof.
  revert v. induction n as [|n IH]; intros v Hv.
  - simpl. now rewrite Z.mod_1_r.
  - cbn [le_bytes rev]. rewrite be_value_app, IH by (apply Z.shiftr_nonneg; lia).
    change 255 with (Z.ones 8). rewrite Z.land_ones, Z.shiftr_div_pow2 by lia.
    change (2 ^ 8) with 256.
    rewrite Nat2Z.inj_succ, Z.pow_succ_r by lia.
    assert (0 < 256 ^ Z.of_nat n) by (apply Z.pow_pos_nonneg; lia).
    rewrite Z.rem_mul_r by lia. lia.
Qed.

Lemma limbs_enough (a : Z) : 0 <= a -> a < 256 ^ (limbs a * _S).
Proof.
  intros Ha. unfold limbs, _S. destruct (Z.eqb_spec a 0) as [->|Hne]; [reflexivity|].
  assert (Hlog : 0 <= Z.log2 a) by apply Z.log2_nonneg.
  assert (Hq : 0 <= Z.log2 a / 64) by (apply Z.div_pos; lia).
  cbv beta iota. change 256 with (2 ^ 8). rewrite <- Z.pow_mul_r by lia.
  apply Z.lt_le_trans with (2 ^ (Z.succ (Z.log2 a))).
  - apply Z.log2_spec. lia.
  - apply Z.pow_le_mono_r; [lia|].
    pose proof (Z.mod_pos_bound (Z.log2 a) 64 ltac:(lia)).
    pose proof (Z.div_mod (Z.log2 a) 64 ltac:(lia)). lia.
Qed.

Lemma strip_zeros_value (l : list Z) : be_value (strip_zeros l) = be_value l.
Proof.
  induction l as [|b l IH]; [reflexivity|]. simpl.
  destruct (Z.eqb_spec b 0) as [->|Hb]; [|reflexivity].
  rewrite IH. unfold be_value. reflexivity.
Qed.

Lemma strip_zeros_is_byte (l : list Z) : Forall is_byte l -> Forall is_byte (strip_zeros l).
Proof.
  induction 1 as [|b l Hb Hl IH]; simpl; [constructor|].
  destruct (b =? 0); [assumption | now constructor].
Qed.

Lemma strip_zeros_head (l : list Z) (b : Z) (t : list Z) :
  strip_zeros l = b :: t -> b <> 0.
Proof.
  induction l as [|c l IH]; simpl; [discriminate|].
  destruct (Z.eqb_spec c 0) as [->|Hc]; [exact IH|].
  intros [= -> _]. exact Hc.
Qed.

Lemma be_value_cons (b : Z) (l : list Z) :
  be_value (b :: l) = b * 256 ^ Z.of_nat (length l) + be_value l.
Proof.
  revert b. induction l as [|c l IH] using rev_ind; intros b.
  - simpl. unfold be_value; simpl. lia.
  - change (b :: l ++ [c]) with ((b :: l) ++ [c]).
    rewrite !be_value_app, IH, length_app, Nat2Z.inj_add. simpl length.
    rewrite Z.pow_add_r by lia. change (256 ^ Z.of_nat 1) with 256. lia.
Qed.

Lemma be_value_bounds (l : list Z) :
  Forall is_byte l -> 0 <= be_value l < 256 ^ Z.of_nat (length l).
Proof.
  induction 1 as [|b l Hb Hl IH].
  - unfold be_value; simpl. lia.
  - rewrite be_value_cons. simpl length. rewrite Nat2Z.inj_succ, Z.pow_succ_r by lia.
    unfold is_byte in Hb. nia.
Qed.

Lemma Bytes_is_byte (x : Z) : Forall is_byte (Bytes x).
Proof. unfold Bytes. apply strip_zeros_is_byte, Forall_rev, le_bytes_is_byte. Qed.

Lemma Bytes_value (x : Z) : be_value (Bytes x) = Z.abs x.
Proof.
  unfold Bytes. cbv zeta. rewrite strip_zeros_value, le_bytes_value by lia.
  pose proof (limbs_enough (Z.abs x) ltac:(lia)) as Hlt.
  assert (0 <= limbs (Z.abs x) * _S).
  { unfold limbs, _S. destruct (Z.abs x =? 0); [lia|].
    pose proof (Z.log2_nonneg (Z.abs x)).
    pose proof (Z.div_pos (Z.log2 (Z.abs x)) 64). lia. }
  rewrite Z2Nat.id by assumption. apply Z.mod_small. lia.
Qed.

Lemma Bytes_head (x b : Z) (t : list Z) : Bytes x = b :: t -> b <> 0.
Proof. unfold Bytes. apply strip_zeros_head. Qed.

Lemma Bytes_shortest (x : Z) (l : list Z) :
  Forall is_byte l -> be_value l = Z.abs x -> (length (Bytes x) <= length l)%nat.
Proof.
  intros Hl Hv.
  destruct (Bytes x) as [|b t] eqn:Hb; [simpl; lia|].
  pose proof (Bytes_head x b t Hb) as Hne.
  pose proof (Bytes_is_byte x) as Hbytes. rewrite Hb in Hbytes.
  pose proof (Bytes_value x) as Hval. rewrite Hb, be_value_cons in Hval.
  inversion Hbytes as [|? ? Hb0 Ht]; subst.
  pose proof (be_value_bounds t Ht) as Ht'.
  pose proof (be_value_bounds l Hl) as Hl'.
  unfold is_byte in Hb0.
  assert (Hlow : 256 ^ Z.of_nat (length t) <= Z.abs x) by nia.
  assert (Hpow : 256 ^ Z.of_nat (length t) < 256 ^ Z.of_nat (length l)) by lia.
  apply Z.pow_lt_mono_r_iff in Hpow; [|lia|lia]. simpl. lia.
Qed.

(** The usual public exponent, a value that fills one limb exactly, a
    negative number and zero. *)
Example Bytes_65537 : Bytes 65537 = [1; 0; 1].
Proof. reflexivity. Qed.

Example Bytes_two_limbs : Bytes (2 ^ 64) = [1; 0; 0; 0; 0; 0; 0; 0; 0].
Proof. reflexivity. Qed.

Example Bytes_negative : Bytes (-256) = [1; 0].
Proof. reflexivity. Qed.

Example Bytes_zero : Bytes 0 = [].
Proof. reflexivity. Qed.

End BigIntFacts.

(** ** Base64 without padding *)
Module Base64Facts.
Import Base64 BigInt.

Lemma list_ind3 {A} (P : list A -> Prop) :
  P [] -> (forall a, P [a]) -> (forall a b, P [a; b]) ->
  (forall a b c l, P l -> P (a :: b :: c :: l)) ->
  forall l, P l.
Proof.
  intros H0 H1 H2 H3 l.
  enough (P l /\ (forall a, P (a :: l)) /\ (forall a b, P (a :: b :: l))) by tauto.
  induction l as [|x l (IH0 & IH1 & IH2)]; [now auto|].
  repeat split; auto.
Qed.

Lemma byte_high (b i : Z) : is_byte b -> 8 <= i -> Z.testbit b i = false.
Proof.
  intros [Hlo Hhi] Hi. destruct (Z.eq_dec b 0) as [->|Hne]; [apply Z.testbit_0_l|].
  apply Z.bits_above_log2; [lia|].
  apply Z.lt_le_trans with 8; [|lia].
  apply Z.log2_lt_pow2; lia.
Qed.

Lemma sextet_range (x : Z) : 0 <= Z.land x 63 < 64.
Proof.
  change 63 with (Z.ones 6). rewrite Z.land_ones by lia.
  apply Z.mod_pos_bound. reflexivity.
Qed.

Lemma sextet_bits (r : Z) :
  0 <= r < 64 ->
  r = bits_value (map (Z.testbit r) [5; 4; 3; 2; 1; 0]).
Proof.
  intros Hr. rewrite <- (Z2Nat.id r) by lia.
  assert (Hn : (Z.to_nat r < 64)%nat) by lia.
  revert Hn. generalize (Z.to_nat r). clear. intros n Hn.
  do 64 (destruct n as [|n]; [reflexivity|]). lia.
Qed.


Ltac testbits :=
  rewrite ?Z.land_spec, ?Z.shiftr_spec, ?Z.lor_spec, ?Z.shiftl_spec by lia;
  rewrite ?Z.lor_spec, ?Z.shiftl_spec by lia;
  repeat match goal with
    | |- context [Z.testbit _ (?i - ?j)] =>
        let k := eval compute in (i - j) in change (i - j) with k
    | |- context [Z.testbit _ (?i + ?j)] =>
        let k := eval compute in (i + j) in change (i + j) with k
    end;
  repeat match goal with
    | |- context [Z.testbit ?b (Z.pos ?p)] =>
        rewrite (byte_high b (Z.pos p)) by (assumption || lia)
    | |- context [Z.testbit ?b (Z.neg ?p)] =>
        rewrite (Z.testbit_neg_r b (Z.neg p)) by lia
    end;
  rewrite ?orb_false_r, ?orb_false_l, ?andb_true_r; try reflexivity.

Lemma sextets_full (fuel : nat) (x5 x4 x3 x2 x1 x0 : bool) (rest : list bool) :
  sextets (S fuel) (x5 :: x4 :: x3 :: x2 :: x1 :: x0 :: rest)
  = bits_value [x5; x4; x3; x2; x1; x0] :: sextets fuel rest.
Proof. reflexivity. Qed.

Lemma sextets_nil (fuel : nat) : sextets fuel [] = [].
Proof. destruct fuel; reflexivity. Qed.

Lemma sextet_of_bits (x : Z) (bs : list bool) :
  map (Z.testbit (Z.land x 63)) [5; 4; 3; 2; 1; 0] = bs ->
  Z.land x 63 = bits_value bs.
Proof. intros <-. apply sextet_bits, sextet_range. Qed.

Ltac conses :=
  repeat match goal with
    | |- _ :: _ = _ :: _ => apply (f_equal2 cons)
    | |- ?x = ?x => reflexivity
    end.

Ltac sextet := apply sextet_of_bits; cbn [map]; conses; testbits.

Lemma byte_bits_eq (b : Z) :
  byte_bits b = [Z.testbit b 7; Z.testbit b 6; Z.testbit b 5; Z.testbit b 4;
                 Z.testbit b 3; Z.testbit b 2; Z.testbit b 1; Z.testbit b 0].
Proof. reflexivity. Qed.

Lemma at_raw (v : Z) : at_ RawURLEncoding v = lookup encodeURL v.
Proof. reflexivity. Qed.

Lemma Encode_sextets (src : list Z) :
  Forall is_byte src ->
  forall fuel, (length (concat (map byte_bits src)) <= fuel)%nat ->
  map (lookup encodeURL) (sextets fuel (concat (map byte_bits src)))
  = Encode RawURLEncoding src.
Proof.
  induction src as [|a|a b|a b c l IH] using list_ind3; intros Hb fuel Hf.
  - simpl. now rewrite sextets_nil.
  - inversion Hb as [|? ? Ha _]; subst.
    destruct fuel as [|[|fuel]]; simpl in Hf; try lia.
    cbn [concat map]. rewrite !byte_bits_eq. cbn [app].
    rewrite sextets_full.
    cbn [sextets firstn skipn length Nat.sub repeat app map Encode pad
         padChar RawURLEncoding].
    rewrite !at_raw, ?sextets_nil. cbn [map].
    conses; try (apply (f_equal (lookup encodeURL)); symmetry; sextet).
  - inversion Hb as [|? ? Ha Hb']; subst. inversion Hb' as [|? ? Hb0 _]; subst.
    destruct fuel as [|[|[|fuel]]]; simpl in Hf; try lia.
    cbn [concat map]. rewrite !byte_bits_eq. cbn [app].
    rewrite !sextets_full.
    cbn [sextets firstn skipn length Nat.sub repeat app map Encode pad
         padChar RawURLEncoding].
    rewrite !at_raw, ?sextets_nil. cbn [map].
    conses; try (apply (f_equal (lookup encodeURL)); symmetry; sextet).
  - inversion Hb as [|? ? Ha Hb']; subst. inversion Hb' as [|? ? Hb0 Hb'']; subst.
    inversion Hb'' as [|? ? Hc Hl]; subst.
    destruct fuel as [|[|[|[|fuel]]]]; simpl in Hf; try lia.
    cbn [concat map]. rewrite !byte_bits_eq. cbn [app].
    rewrite !sextets_full.
    cbn [map Encode app]. rewrite IH by (assumption || lia).
    rewrite !at_raw, ?sextets_nil. cbn [map].
    conses; try (apply (f_equal (lookup encodeURL)); symmetry; sextet).
Qed.

Lemma EncodeToString_rfc4648 (src : list Z) :
  Forall is_byte src ->
  EncodeToString RawURLEncoding src = rfc4648_unpadded encodeURL src.
Proof.
  intros Hb. unfold EncodeToString, rfc4648_unpadded. cbv zeta.
  f_equal. symmetry. now apply (Encode_sextets src Hb).
Qed.

Lemma lookup_url (v : Z) :
  0 <= v < 64 -> In (lookup encodeURL v) (list_ascii_of_string encodeURL).
Proof.
  intros Hv. rewrite <- (Z2Nat.id v) by lia.
  assert (Hn : (Z.to_nat v < 64)%nat) by lia.
  revert Hn. generalize (Z.to_nat v). clear. intros n Hn.
  do 64 (destruct n as [|n]; [vm_compute; tauto|]). lia.
Qed.

Lemma at_raw_url (x : Z) :
  In (at_ RawURLEncoding (Z.land x 63)) (list_ascii_of_string encodeURL).
Proof. rewrite at_raw. apply lookup_url, sextet_range. Qed.

Lemma Encode_raw_alphabet (src : list Z) :
  Forall (fun c => In c (list_ascii_of_string encodeURL))
         (Encode RawURLEncoding src).
Proof.
  induction src as [|a|a b|a b c l IH] using list_ind3; cbn [Encode app pad padChar RawURLEncoding];
    repeat (constructor; [apply at_raw_url|]); auto.
Qed.

Lemma Encode_raw_length (src : list Z) :
  length (Encode RawURLEncoding src) = ((8 * length src + 5) / 6)%nat.
Proof.
  induction src as [|a|a b|a b c l IH] using list_ind3; try reflexivity.
  cbn [Encode app length]. rewrite IH.
  replace (8 * S (S (S (length l))) + 5)%nat
    with (8 * length l + 5 + 4 * 6)%nat by lia.
  rewrite Nat.div_add by lia. lia.
Qed.

Lemma url_alphabet_no_padding :
  ~ In StdPadding (list_ascii_of_string encodeURL).
Proof.
  vm_compute. intros H.
  repeat (destruct H as [H|H]; [discriminate H|]). exact H.
Qed.

Lemma EncodeToString_raw_no_padding (src : list Z) :
  ~ In StdPadding (list_ascii_of_string (EncodeToString RawURLEncoding src)).
Proof.
  unfold EncodeToString. rewrite list_ascii_of_string_of_list_ascii.
  intros Hin. apply url_alphabet_no_padding.
  pose proof (Encode_raw_alphabet src) as Hall.
  rewrite List.Forall_forall in Hall. now apply Hall.
Qed.

Example EncodeToString_65537 :
  EncodeToString RawURLEncoding (Bytes 65537) = "AQAB".
Proof. reflexivity. Qed.

Example EncodeToString_raw_remainders :
  EncodeToString RawURLEncoding [102] = "Zg" /\
  EncodeToString RawURLEncoding [102; 111] = "Zm8" /\
  EncodeToString RawURLEncoding [102; 111; 111] = "Zm9v" /\
  EncodeToString RawURLEncoding [251; 255] = "-_8".
Proof. repeat split. Qed.

Example EncodeToString_padded :
  EncodeToString URLEncoding [102] = "Zg==" /\
  EncodeToString URLEncoding [102; 111] = "Zm8=".
Proof. split; reflexivity. Qed.

End Base64Facts.

(** ** The two handlers, step by step *)
Section Handlers.

Variables (w : Http.ResponseWriter) (r : Http.Request) (s : State).

Lemma jwksHandler_get :
  Http.Method r = "GET" ->
  jwksHandler w r s =
  match validKey (globals s) with
  | Some vk =>
      (Http.Encode (jsonWriter w)
         (marshalJWKS {| Keys := if Before (clockNow s) (ExpiresAt vk)
                                 then Slice.Of [toJWK vk] else Slice.Nil |}),
       snd (time_Now s))
  | None => (Http.Encode (jsonWriter w) (marshalJWKS {| Keys := Slice.Nil |}), s)
  end.
Proof.
  intros Hm. unfold jwksHandler. rewrite Hm.
  change (negb ("GET" =? "GET")%string) with false. cbv iota.
  unfold bind, getGlobals, ret.
  destruct (validKey (globals s)) as [vk|]; [|reflexivity].
  unfold time_Now, clockNow.
  destruct (Before _ _); reflexivity.
Qed.

Lemma selectKey_forced (ek : KeyPair) :
  Http.Get (Http.Query r) "expired" <> "" ->
  expiredKey (globals s) = Some ek ->
  selectKey (globals s) r s = (Some (ek, Unix (ExpiresAt ek)), s).
Proof.
  intros Hq He. unfold selectKey. rewrite He.
  destruct (String.eqb_spec (Http.Get (Http.Query r) "expired") "") as [Heq|_];
    [contradiction|reflexivity].
Qed.

Lemma selectKey_active :
  Http.Get (Http.Query r) "expired" = "" \/ expiredKey (globals s) = None ->
  selectKey (globals s) r s =
  match validKey (globals s) with
  | Some vk => (Some (vk, Unix (Add (clockNow s) Hour)), snd (time_Now s))
  | None => (None, s)
  end.
Proof.
  intros H. unfold selectKey.
  assert (Hsel : match negb (Http.Get (Http.Query r) "expired" =? "")%string,
                       expiredKey (globals s) with
                 | true, Some _ => False
                 | _, _ => True
                 end).
  { destruct H as [-> | ->]; [exact I|]. now destruct (negb _). }
  destruct (negb _), (expiredKey (globals s)), (validKey (globals s));
    try contradiction; reflexivity.
Qed.

Lemma authHandler_post :
  Http.Method r = "POST" ->
  authHandler w r s =
  match selectKey (globals s) r s with
  | (None, s1) => (Http.Error (jsonWriter w) "No keys available" 500, s1)
  | (Some (k, exp), s1) =>
      let (tok, s2) := newToken k exp s1 in
      match signFunc (globals s) (PrivateKey k) Jwt.SigningMethodRS256 tok with
      | (_, Some _) => (Http.Error (jsonWriter w) "Failed to sign token" 500, s2)
      | (str, None) =>
          (Http.Encode (jsonWriter w) (Json.Obj [("token", Json.Str str)]), s2)
      end
  end.
Proof.
  intros Hm. unfold authHandler. rewrite Hm.
  change (negb ("POST" =? "POST")%string) with false. cbv iota.
  unfold bind at 1. unfold getGlobals. unfold bind at 1.
  destruct (selectKey (globals s) r s) as [[[k exp]|] s1]; [|reflexivity].
  unfold bind. destruct (newToken k exp s1) as [tok s2].
  destruct (signFunc _ _ _ _) as [str [err|]]; reflexivity.
Qed.

Lemma selectKey_globals : globals (snd (selectKey (globals s) r s)) = globals s.
Proof.
  unfold selectKey.
  destruct (negb _), (expiredKey (globals s)), (validKey (globals s)); reflexivity.
Qed.

End Handlers.

Lemma newToken_globals (k : KeyPair) (exp : Z) (s : State) :
  globals (snd (newToken k exp s)) = globals s.
Proof. reflexivity. Qed.

Lemma newToken_kid (k : KeyPair) (exp : Z) (s : State) :
  Jwt.Header (fst (newToken k exp s)) !! "kid" = Some (Kid k).
Proof. unfold newToken, bind, ret, time_Now. cbn [fst Jwt.SetHeader Jwt.Header]. apply lookup_insert_eq. Qed.

Lemma newToken_exp (k : KeyPair) (exp : Z) (s : State) :
  Jwt.Claims (fst (newToken k exp s)) !! "exp" = Some (Jwt.ClaimInt exp).
Proof.
  unfold newToken, bind, ret, time_Now.
  cbn [fst Jwt.SetHeader Jwt.NewWithClaims Jwt.Claims].
  rewrite lookup_insert_ne by discriminate. apply lookup_insert_eq.
Qed.


Lemma Unix_add_hour (t : Time) : Unix (Add t Hour) = Unix t + 3600.
Proof.
  unfold Unix, Add, Hour, Minute, Second, Nanosecond.
  replace (t + 60 * (60 * (1000000000 * 1))) with (t + 3600 * (1000000000 * 1)) by lia.
  rewrite Z.div_add by lia. reflexivity.
Qed.

(** ** The discovery document *)

Lemma discover_keys (s : State) :
  documentKeys (discover s) =
  Some (Json.of_slice marshalJWK
          match validKey (globals s) with
          | Some vk => if Before (clockNow s) (ExpiresAt vk)
                       then Slice.Of [toJWK vk] else Slice.Nil
          | None => Slice.Nil
          end).
Proof.
  unfold discover. rewrite jwksHandler_get by reflexivity.
  destruct (validKey (globals s)) as [vk|]; reflexivity.
Qed.

Lemma discover_records (s : State) :
  records (discover s) =
  match validKey (globals s) with
  | Some vk => if Before (clockNow s) (ExpiresAt vk)
               then [marshalJWK (toJWK vk)] else []
  | None => []
  end.
Proof.
  unfold records. rewrite discover_keys.
  destruct (validKey (globals s)) as [vk|]; [|reflexivity].
  destruct (Before _ _); reflexivity.
Qed.

Lemma recordKid_toJWK (kp : KeyPair) : recordKid (marshalJWK (toJWK kp)) = Some (Kid kp).
Proof. reflexivity. Qed.

Lemma initKeys_production (s : State) (s1 : State) :
  generateKeyPairFunc (globals s) = generateKeyPair ->
  initKeys s = (None, s1) ->
  exists vk ek,
    validKey (globals s1) = Some vk /\ expiredKey (globals s1) = Some ek /\
    ExpiresAt vk = Add (clockNow s) (24 * Hour) /\
    ExpiresAt ek = Add (wall (world s) (S (reads (world s)))) (- Hour) /\
    Kid vk = uuidNew (world s) (S (draws (world s))) /\
    Kid ek = uuidNew (world s) (S (S (S (draws (world s))))).
Proof.
  intros Hgen. unfold initKeys, bind, callGenerate, time_Now, setValidKey,
    setExpiredKey, ret, clockNow. cbn [globals world fst snd].
  rewrite Hgen. unfold generateKeyPair at 1. cbn [rsaGenerateKey draws].
  destruct (rsaGenerateKey (world s) (draws (world s))) as [k1|e1];
    cbn [fst snd globals world generateKeyPairFunc]; [|discriminate].
  rewrite Hgen. unfold generateKeyPair, draw. cbn [rsaGenerateKey draws uuidNew wall reads].
  destruct (rsaGenerateKey (world s) (S (S (draws (world s))))) as [k2|e2];
    cbn [fst snd globals world]; [|discriminate].
  intros [= <-]. eexists _, _. cbn. repeat split; reflexivity.
Qed.

(** For any registry, however it was set. The discovery document built
    at [now] holds
    the record of the active key exactly when that key is set and its
    expiry is strictly after [now]; it never holds anything else, so it has
    at most one record and the key of the expired slot is left out
    whenever the document is built and whatever its expiry. After an
    initialization at T0 the document built at any [now] before T0 + 24h
    has exactly one record, the one of the active key. *)
Theorem discovery_publishes_active_key_only (s : State) :
  (forall vk, validKey (globals s) = Some vk ->
     (hasRecordFor (discover s) vk <-> clockNow s < ExpiresAt vk)) /\
  (forall item, In item (records (discover s)) ->
     exists vk, validKey (globals s) = Some vk /\
                clockNow s < ExpiresAt vk /\
                item = marshalJWK (toJWK vk)) /\
  (length (records (discover s)) <= 1)%nat /\
  (forall ek, expiredKey (globals s) = Some ek ->
     (forall vk, validKey (globals s) = Some vk -> Kid vk <> Kid ek) ->
     ~ hasRecordFor (discover s) ek) /\
  (forall s0 s1,
     generateKeyPairFunc (globals s0) = generateKeyPair ->
     initKeys s0 = (None, s1) ->
     globals s = globals s1 ->
     clockNow s < Add (clockNow s0) (24 * Hour) ->
     exists vk, validKey (globals s) = Some vk /\
                records (discover s) = [marshalJWK (toJWK vk)]).
Proof.
  unfold hasRecordFor. rewrite discover_records.
  split; [|split; [|split; [|split]]].
  - intros vk Hvk. rewrite Hvk. unfold Before.
    destruct (Z.ltb_spec (clockNow s) (ExpiresAt vk)) as [Hlt|Hge]; split.
    + intros _. exact Hlt.
    + intros _. left. apply recordKid_toJWK.
    + intros [].
    + lia.
  - intros item Hin. destruct (validKey (globals s)) as [vk|]; [|contradiction].
    unfold Before in Hin.
    destruct (Z.ltb_spec (clockNow s) (ExpiresAt vk)) as [Hlt|Hge]; [|contradiction].
    destruct Hin as [<-|[]]. now exists vk.
  - destruct (validKey (globals s)) as [vk|]; [destruct (Before _ _)|]; simpl; lia.
  - intros ek _ Hne Hin. destruct (validKey (globals s)) as [vk|]; [|contradiction].
    destruct (Before _ _); [|contradiction].
    destruct Hin as [Hk|[]]. rewrite recordKid_toJWK in Hk.
    injection Hk as Hk. now apply (Hne vk).
  - intros s0 s1 Hgen Hinit Hg Hlt.
    destruct (initKeys_production s0 s1 Hgen Hinit) as (vk & ek & Hv & _ & Hexp & _).
    exists vk. rewrite Hg, Hv. split; [reflexivity|].
    unfold Before. rewrite <- Hexp in Hlt.
    destruct (Z.ltb_spec (clockNow s) (ExpiresAt vk)); [reflexivity|lia].
Qed.

Lemma discovery_publishes_active_key_only_witness :
  hasRecordFor (discover Sample.started) Sample.active /\
  ~ hasRecordFor (discover Sample.started) Sample.expired /\
  records (discover Sample.started) = [marshalJWK (toJWK Sample.active)].
Proof.
  destruct (discovery_publishes_active_key_only Sample.started)
    as (Hactive & _ & _ & Hexpired & Hinit).
  split; [|split].
  - apply (Hactive Sample.active); [reflexivity|]. vm_compute. reflexivity.
  - apply (Hexpired Sample.expired); [reflexivity|].
    intros vk Hvk. injection Hvk as <-. discriminate.
  - destruct (Hinit Sample.empty Sample.started) as (vk & Hvk & Hrec);
      [reflexivity | reflexivity | reflexivity | vm_compute; reflexivity |].
    injection Hvk as <-. exact Hrec.
Defined.

(** A key held by the expired slot is left out even while it has not
    expired: here both slots hold keys that expire after the reading of
    the clock, and only the active one is published. *)
Example expired_slot_is_not_consulted :
  let s := {| globals := {| validKey := Some Sample.active;
                            expiredKey := Some {| Kid := "kid-other";
                                                  PrivateKey := Sample.key2;
                                                  PublicKey := Rsa.Public Sample.key2;
                                                  ExpiresAt := Add Sample.T0 Hour |};
                            generateKeyPairFunc := generateKeyPair;
                            signFunc := Sample.signKid |};
              world := Sample.world0 |} in
  map recordKid (records (discover s)) = [Some "kid-active"].
Proof. reflexivity. Qed.

(** Expiry filtering over both slots needs a clock that is not before
    the initialization: for a registry initialized at T0 = 7200 s and a
    document built at [now] = 0, the key of the expired slot expires at
    3600 s, strictly after [now], and has no record. *)
Lemma expiry_filtering_fails_before_expiry :
  ~ expiryFiltering (withClock 0 Sample.started).
Proof.
  intros Hclaim.
  destruct (Hclaim Sample.expired (or_intror eq_refl)) as [_ Hrec].
  assert (Hin : hasRecordFor (discover (withClock 0 Sample.started)) Sample.expired).
  { apply Hrec. vm_compute. reflexivity. }
  unfold hasRecordFor in Hin. rewrite discover_records in Hin.
  vm_compute in Hin. destruct Hin as [Hk|[]]. discriminate Hk.
Qed.

(** C1. For a registry set by a successful [initKeys] (production
    generator, the two identifiers drawn being different) and every
    reading [now] of the clock that is not before the readings [initKeys]
    took: the discovery document built at [now] contains a record for a
    key pair of the registry if and only if that key pair's expiry is
    strictly after [now]. Concretely, as long as [now] is before the
    active key's expiry (T0 + 24h) the document contains exactly one
    record, the active key's, and excludes the expired key; and the
    expired key has no record in any document built from this registry,
    whenever it is built. *)
Theorem expiry_filtering_after_initKeys (s0 s1 s : State) :
  generateKeyPairFunc (globals s0) = generateKeyPair ->
  initKeys s0 = (None, s1) ->
  globals s = globals s1 ->
  uuidNew (world s0) (S (draws (world s0)))
    <> uuidNew (world s0) (S (S (S (draws (world s0))))) ->
  wall (world s0) (S (reads (world s0))) <= clockNow s ->
  expiryFiltering s /\
  exists vk ek,
    validKey (globals s) = Some vk /\ expiredKey (globals s) = Some ek /\
    ExpiresAt vk = Add (clockNow s0) (24 * Hour) /\
    (clockNow s < ExpiresAt vk ->
       records (discover s) = [marshalJWK (toJWK vk)] /\
       hasRecordFor (discover s) vk /\
       ~ hasRecordFor (discover s) ek) /\
    (forall s', globals s' = globals s -> ~ hasRecordFor (discover s') ek).
Proof.
  intros Hgen Hinit Hg Hkids Hclock.
  destruct (initKeys_production s0 s1 Hgen Hinit)
    as (vk & ek & Hv & He & Hexpv & Hexpe & Hkv & Hke).
  rewrite <- Hg in Hv, He.
  assert (Hne : Kid vk <> Kid ek) by congruence.
  assert (Hpast : ExpiresAt ek <= clockNow s).
  { rewrite Hexpe. unfold Add, Hour, Minute, Second, Nanosecond. lia. }
  assert (Hnever : forall s', globals s' = globals s -> ~ hasRecordFor (discover s') ek).
  { intros s' Hg' Hin. unfold hasRecordFor in Hin.
    rewrite discover_records, Hg', Hv in Hin.
    destruct (Before _ _); [|contradiction].
    destruct Hin as [Hk | []]. rewrite recordKid_toJWK in Hk.
    injection Hk as Hk. contradiction. }
  assert (Hactive : hasRecordFor (discover s) vk <-> clockNow s < ExpiresAt vk).
  { unfold hasRecordFor. rewrite discover_records, Hv. unfold Before.
    destruct (Z.ltb_spec (clockNow s) (ExpiresAt vk)) as [Hlt | Hge]; split.
    - intros _. exact Hlt.
    - intros _. left. apply recordKid_toJWK.
    - intros [].
    - lia. }
  split.
  - intros kp [Hkp | Hkp].
    + rewrite Hv in Hkp. injection Hkp as <-. exact Hactive.
    + rewrite He in Hkp. injection Hkp as <-. split.
      * intros Hin. exfalso. now apply (Hnever s eq_refl).
      * lia.
  - exists vk, ek. split; [exact Hv|]. split; [exact He|]. split; [exact Hexpv|].
    split; [|exact Hnever].
    intros Hlt. split; [|split].
    + rewrite discover_records, Hv. unfold Before.
      destruct (Z.ltb_spec (clockNow s) (ExpiresAt vk)); [reflexivity | lia].
    + now apply Hactive.
    + now apply (Hnever s eq_refl).
Qed.

Lemma expiry_filtering_after_initKeys_witness :
  expiryFiltering Sample.started /\
  records (discover Sample.started) = [marshalJWK (toJWK Sample.active)] /\
  ~ hasRecordFor (discover (withClock (Add Sample.T0 (48 * Hour)) Sample.started))
      Sample.expired.
Proof.
  destruct (expiry_filtering_after_initKeys Sample.empty Sample.started Sample.started)
    as (Hfilter & vk & ek & Hv & He & _ & Hfresh & Hnever);
    [reflexivity | reflexivity | reflexivity | discriminate
    | vm_compute; discriminate |].
  injection Hv as <-. injection He as <-.
  split; [exact Hfilter|]. split.
  - apply Hfresh. vm_compute. reflexivity.
  - apply Hnever. reflexivity.
Defined.

(** C5. When no key is publishable (the active slot is empty, or its key
    has expired) the answer of the discovery operation is the object whose
    "keys" field is null: the slice was never appended to, and a nil slice
    does not marshal to an array. *)
Theorem discovery_keys_null_when_nothing_publishable (s : State) :
  (validKey (globals s) = None \/
   exists vk, validKey (globals s) = Some vk /\ ExpiresAt vk <= clockNow s) ->
  Http.status (discover s) = Some 200 /\
  Http.body (discover s) = [Http.JsonDoc (Json.Obj [("keys", Json.Null)])] /\
  ~ keysIsArray s.
Proof.
  intros Hnone.
  assert (Hbody : Http.status (discover s) = Some 200 /\
                  Http.body (discover s) = [Http.JsonDoc (Json.Obj [("keys", Json.Null)])]).
  { unfold discover. rewrite jwksHandler_get by reflexivity.
    destruct Hnone as [-> | (vk & -> & Hexp)]; [split; reflexivity|].
    unfold Before. destruct (Z.ltb_spec (clockNow s) (ExpiresAt vk)); [lia|].
    split; reflexivity. }
  destruct Hbody as [Hst Hb]. repeat split; [exact Hst | exact Hb |].
  intros [items Hitems]. unfold documentKeys in Hitems. rewrite Hb in Hitems.
  discriminate Hitems.
Qed.

Lemma discovery_keys_null_when_nothing_publishable_witness :
  Http.body (discover Sample.empty) = [Http.JsonDoc (Json.Obj [("keys", Json.Null)])] /\
  ~ keysIsArray Sample.empty.
Proof.
  destruct (discovery_keys_null_when_nothing_publishable Sample.empty) as (_ & Hb & Hn).
  - left. reflexivity.
  - split; assumption.
Defined.

(** ** The discovery record *)

Lemma Bytes_minimal (v : Z) : minimalBigEndian (Z.abs v) (BigInt.Bytes v).
Proof.
  repeat split.
  - apply BigIntFacts.Bytes_is_byte.
  - apply BigIntFacts.Bytes_value.
  - apply BigIntFacts.Bytes_head.
  - apply BigIntFacts.Bytes_shortest.
Qed.

(** C9. In the record of a key pair, "n" and "e" are the unpadded
    base64url text (RFC 4648: groups of six bits, most significant first,
    over the URL-safe alphabet, no padding character) of the shortest
    big-endian byte sequence of the magnitude of the modulus and of the
    exponent: every element is a byte, the sequence denotes the magnitude
    (the number itself when it is not negative), its first byte is not
    zero, zero gives the empty sequence, and no byte sequence of the same
    value is shorter. The record depends on the identifier and the public
    key only. *)
Theorem toJWK_numeric_encoding (kp : KeyPair) :
  let n := Rsa.N (PublicKey kp) in
  let e := Rsa.E (PublicKey kp) in
  minimalBigEndian (Z.abs n) (BigInt.Bytes n) /\
  minimalBigEndian (Z.abs e) (BigInt.Bytes e) /\
  BigInt.Bytes 0 = [] /\
  JN (toJWK kp) = Base64.rfc4648_unpadded Base64.encodeURL (BigInt.Bytes n) /\
  JE (toJWK kp) = Base64.rfc4648_unpadded Base64.encodeURL (BigInt.Bytes e) /\
  ~ hasChar Base64.StdPadding (JN (toJWK kp)) /\
  ~ hasChar Base64.StdPadding (JE (toJWK kp)) /\
  String.length (JN (toJWK kp)) = ((8 * length (BigInt.Bytes n) + 5) / 6)%nat /\
  String.length (JE (toJWK kp)) = ((8 * length (BigInt.Bytes e) + 5) / 6)%nat /\
  (forall kp', Kid kp' = Kid kp -> PublicKey kp' = PublicKey kp ->
               toJWK kp' = toJWK kp).
Proof.
  cbv zeta. unfold toJWK; cbn [JN JE].
  repeat match goal with |- _ /\ _ => split end.
  - apply Bytes_minimal.
  - apply Bytes_minimal.
  - reflexivity.
  - apply Base64Facts.EncodeToString_rfc4648, BigIntFacts.Bytes_is_byte.
  - apply Base64Facts.EncodeToString_rfc4648, BigIntFacts.Bytes_is_byte.
  - apply Base64Facts.EncodeToString_raw_no_padding.
  - apply Base64Facts.EncodeToString_raw_no_padding.
  - unfold Base64.EncodeToString.
    rewrite <- Base64Facts.Encode_raw_length.
    generalize (Base64.Encode Base64.RawURLEncoding (BigInt.Bytes (Rsa.N (PublicKey kp)))).
    intros l. induction l as [|c l IH]; simpl; congruence.
  - unfold Base64.EncodeToString.
    rewrite <- Base64Facts.Encode_raw_length.
    generalize (Base64.Encode Base64.RawURLEncoding (BigInt.Bytes (Rsa.E (PublicKey kp)))).
    intros l. induction l as [|c l IH]; simpl; congruence.
  - intros kp' Hk Hp. now rewrite Hk, Hp.
Qed.

Lemma toJWK_numeric_encoding_witness :
  toJWK {| Kid := "kid-active"; PrivateKey := Sample.key2;
           PublicKey := Rsa.Public Sample.key1; ExpiresAt := 0 |}
  = toJWK Sample.active /\
  JE (toJWK Sample.active) = "EQ".
Proof.
  destruct (toJWK_numeric_encoding Sample.active)
    as (_ & _ & _ & _ & He & _ & _ & _ & _ & Hpure).
  split.
  - apply Hpure; reflexivity.
  - rewrite He. vm_compute. reflexivity.
Defined.

(** ** Issuance *)

Lemma issue_selected (s : State) (r : Http.Request) (k : KeyPair) (exp : Z) (s1 : State) :
  Http.Method r = "POST" ->
  selectKey (globals s) r s = (Some (k, exp), s1) ->
  issue s r =
  answer (signFunc (globals s) (PrivateKey k) Jwt.SigningMethodRS256
            (fst (newToken k exp s1))).
Proof.
  intros Hm Hsel. unfold issue. rewrite authHandler_post, Hsel by exact Hm.
  destruct (newToken k exp s1) as [tok s2] eqn:Htok. cbn [fst].
  destruct (signFunc _ _ _ _) as [str [err|]]; reflexivity.
Qed.

Lemma issue_no_key (s : State) (r : Http.Request) (s1 : State) :
  Http.Method r = "POST" ->
  selectKey (globals s) r s = (None, s1) ->
  issue s r = Http.Error (jsonWriter Http.NewRecorder) "No keys available" 500.
Proof.
  intros Hm Hsel. unfold issue. now rewrite authHandler_post, Hsel by exact Hm.
Qed.

Lemma issuedToken_answer (signed : string * option error) (str : string) :
  issuedToken (answer signed) = Some str <-> signed = (str, None).
Proof.
  destruct signed as [t [err|]]; cbn.
  - split; discriminate.
  - split; [intros [= ->] | intros [= ->]]; reflexivity.
Qed.

Lemma answer_not_NoKeyAvailable (signed : string * option error) :
  ~ NoKeyAvailable (answer signed).
Proof. destruct signed as [t [err|]]; intros [Hs Hb]; discriminate. Qed.

Lemma scenario_normal (r : Http.Request) :
  scenario r = normal <-> Http.Get (Http.Query r) "expired" = "".
Proof.
  unfold scenario.
  destruct (String.eqb_spec (Http.Get (Http.Query r) "expired") ""); split;
    congruence.
Qed.

Lemma scenario_forced (r : Http.Request) :
  scenario r = forcedExpiredKey <-> Http.Get (Http.Query r) "expired" <> "".
Proof.
  unfold scenario.
  destruct (String.eqb_spec (Http.Get (Http.Query r) "expired") ""); split;
    congruence.
Qed.

(** The outcome of [selectKey], case by case. *)
Lemma selectKey_cases (s : State) (r : Http.Request) :
  (exists ek, scenario r = forcedExpiredKey /\ expiredKey (globals s) = Some ek /\
              selectKey (globals s) r s = (Some (ek, Unix (ExpiresAt ek)), s)) \/
  (exists vk, (scenario r = normal \/ expiredKey (globals s) = None) /\
              validKey (globals s) = Some vk /\
              selectKey (globals s) r s =
              (Some (vk, Unix (Add (clockNow s) Hour)), snd (time_Now s))) \/
  ((scenario r = normal \/ expiredKey (globals s) = None) /\
   validKey (globals s) = None /\
   selectKey (globals s) r s = (None, s)).
Proof.
  destruct (scenario r) eqn:Hsc.
  - right. apply scenario_normal in Hsc.
    rewrite (selectKey_active r s (or_introl Hsc)).
    destruct (validKey (globals s)) as [vk|]; [left; exists vk | right]; auto.
  - apply scenario_forced in Hsc.
    destruct (expiredKey (globals s)) as [ek|] eqn:He.
    + left. exists ek. repeat split. now apply selectKey_forced.
    + right. rewrite (selectKey_active r s (or_intror He)).
      destruct (validKey (globals s)) as [vk|]; [left; exists vk | right]; auto.
Qed.

Lemma answer_signed (signed : string * option error) :
  (forall str, signed = (str, None) -> issuedToken (answer signed) = Some str) /\
  (snd signed <> None ->
   SigningFailure (answer signed) /\ issuedToken (answer signed) = None).
Proof.
  destruct signed as [t [err|]]; cbn [snd]; split.
  - discriminate.
  - intros _. split; [split|]; reflexivity.
  - intros str [= ->]. reflexivity.
  - intros Hne. now contradiction Hne.
Qed.

(** C2, as the code has it. In the forced-expired scenario the expired key
    is selected for signing whenever it is set: the answer is that of
    signing, with that key, the token whose expiry claim is the key's
    expiry. When it is not set the request falls through to the active
    key, which is then selected with an expiry claim one hour ahead: a
    token is issued whenever the signing capability succeeds on it, and
    the operation fails with SigningFailure, without a token, when it
    does not. The operation fails with NoKeyAvailable, and produces no
    token, only when the active key is not set either. *)
Theorem forced_expired_selects_expired_else_active (s : State) (r : Http.Request) :
  Http.Method r = "POST" ->
  scenario r = forcedExpiredKey ->
  (forall ek, expiredKey (globals s) = Some ek ->
     selectKey (globals s) r s = (Some (ek, Unix (ExpiresAt ek)), s) /\
     issue s r = answer (signFunc (globals s) (PrivateKey ek) Jwt.SigningMethodRS256
                           (fst (newToken ek (Unix (ExpiresAt ek)) s))) /\
     ~ NoKeyAvailable (issue s r) /\
     (forall str,
        signFunc (globals s) (PrivateKey ek) Jwt.SigningMethodRS256
          (fst (newToken ek (Unix (ExpiresAt ek)) s)) = (str, None) ->
        issuedToken (issue s r) = Some str)) /\
  (expiredKey (globals s) = None ->
   forall vk, validKey (globals s) = Some vk ->
     selectKey (globals s) r s =
       (Some (vk, Unix (Add (clockNow s) Hour)), snd (time_Now s)) /\
     issue s r = answer (signFunc (globals s) (PrivateKey vk) Jwt.SigningMethodRS256
                           (fst (newToken vk (Unix (Add (clockNow s) Hour))
                                   (snd (time_Now s))))) /\
     ~ NoKeyAvailable (issue s r) /\
     (forall str,
        signFunc (globals s) (PrivateKey vk) Jwt.SigningMethodRS256
          (fst (newToken vk (Unix (Add (clockNow s) Hour)) (snd (time_Now s))))
        = (str, None) ->
        issuedToken (issue s r) = Some str) /\
     (snd (signFunc (globals s) (PrivateKey vk) Jwt.SigningMethodRS256
             (fst (newToken vk (Unix (Add (clockNow s) Hour)) (snd (time_Now s)))))
      <> None ->
      SigningFailure (issue s r) /\ issuedToken (issue s r) = None)) /\
  (expiredKey (globals s) = None -> validKey (globals s) = None ->
   NoKeyAvailable (issue s r) /\ issuedToken (issue s r) = None).
Proof.
  intros Hm Hsc. apply scenario_forced in Hsc.
  split; [|split].
  - intros ek He. pose proof (selectKey_forced r s ek Hsc He) as Hsel.
    split; [exact Hsel|].
    rewrite (issue_selected s r _ _ _ Hm Hsel).
    split; [reflexivity|]. split; [apply answer_not_NoKeyAvailable|].
    apply answer_signed.
  - intros He vk Hv.
    pose proof (selectKey_active r s (or_intror He)) as Hsel. rewrite Hv in Hsel.
    split; [exact Hsel|].
    rewrite (issue_selected s r _ _ _ Hm Hsel).
    split; [reflexivity|]. split; [apply answer_not_NoKeyAvailable|].
    split; apply answer_signed.
  - intros He Hv.
    pose proof (selectKey_active r s (or_intror He)) as Hsel. rewrite Hv in Hsel.
    rewrite (issue_no_key s r _ Hm Hsel). repeat split.
Qed.

Lemma forced_expired_selects_expired_else_active_witness :
  fst (selectKey (globals Sample.started) Sample.postExpired Sample.started)
    = Some (Sample.expired, 3600) /\
  issuedToken (issue Sample.started Sample.postExpired) = Some "kid-expired" /\
  issuedToken (issue Sample.activeOnly Sample.postExpired) = Some "kid-active" /\
  SigningFailure
    (issue (withSignFunc Sample.signBroken Sample.activeOnly) Sample.postExpired) /\
  NoKeyAvailable (issue Sample.empty Sample.postExpired).
Proof.
  destruct (forced_expired_selects_expired_else_active Sample.started Sample.postExpired)
    as (Hexp & _ & _); [reflexivity | reflexivity |].
  destruct (forced_expired_selects_expired_else_active Sample.activeOnly Sample.postExpired)
    as (_ & Hfall & _); [reflexivity | reflexivity |].
  destruct (forced_expired_selects_expired_else_active
              (withSignFunc Sample.signBroken Sample.activeOnly) Sample.postExpired)
    as (_ & Hbroken & _); [reflexivity | reflexivity |].
  destruct (forced_expired_selects_expired_else_active Sample.empty Sample.postExpired)
    as (_ & _ & Hnone); [reflexivity | reflexivity |].
  destruct (Hexp Sample.expired eq_refl) as (Hsel & _ & _ & Htok).
  destruct (Hfall eq_refl Sample.active eq_refl) as (_ & _ & _ & Htok' & _).
  destruct (Hbroken eq_refl Sample.active eq_refl) as (_ & _ & _ & _ & Hfail).
  destruct (Hnone eq_refl eq_refl) as [Hno _].
  split; [|split; [|split; [|split]]].
  - rewrite Hsel. reflexivity.
  - apply Htok. reflexivity.
  - apply Htok'. reflexivity.
  - apply Hfail. discriminate.
  - exact Hno.
Defined.

(** C2 as the specification words it fails: with only the active key set,
    a request with [expired=true] is answered with a token signed by the
    active key, not with NoKeyAvailable. *)
Lemma forced_without_expired_key_issues_token :
  ~ forcedFailsWithoutExpiredKey Sample.activeOnly Sample.postExpired.
Proof.
  intros Hclaim.
  destruct (Hclaim eq_refl eq_refl eq_refl) as [_ Hnone].
  vm_compute in Hnone. discriminate Hnone.
Qed.

(** Every successful issuance signs the token built for the selected key. *)
Lemma issued_from_selection (s : State) (r : Http.Request) (str : string) :
  Http.Method r = "POST" ->
  issuedToken (issue s r) = Some str ->
  exists k exp s1,
    selectKey (globals s) r s = (Some (k, exp), s1) /\
    signFunc (globals s) (PrivateKey k) Jwt.SigningMethodRS256
      (fst (newToken k exp s1)) = (str, None).
Proof.
  intros Hm Htok.
  destruct (selectKey (globals s) r s) as [[[k exp]|] s1] eqn:Hsel.
  - exists k, exp, s1. split; [reflexivity|].
    rewrite (issue_selected s r k exp s1 Hm Hsel) in Htok.
    now apply issuedToken_answer.
  - rewrite (issue_no_key s r s1 Hm Hsel) in Htok. discriminate Htok.
Qed.

(** C3, as the code has it. The token of a successful issuance carries
    the expiry claim chosen with the key: when the active key signs (the
    normal scenario, and the forced-expired scenario without an expired
    key) it is the second of [now] plus one hour, that is the second of
    [now] plus 3600; when the expired key signs (the forced-expired
    scenario with the expired key set) it is the second of that key's
    expiry. *)
Theorem expiry_claim_follows_selected_key (s : State) (r : Http.Request) (str : string) :
  Http.Method r = "POST" ->
  issuedToken (issue s r) = Some str ->
  exists k exp s1 tok,
    selectKey (globals s) r s = (Some (k, exp), s1) /\
    fst (newToken k exp s1) = tok /\
    signFunc (globals s) (PrivateKey k) Jwt.SigningMethodRS256 tok = (str, None) /\
    Jwt.Claims tok !! "exp" = Some (Jwt.ClaimInt exp) /\
    (scenario r = normal \/ expiredKey (globals s) = None ->
       validKey (globals s) = Some k /\
       exp = Unix (Add (clockNow s) Hour) /\
       exp = Unix (clockNow s) + 3600) /\
    (scenario r = forcedExpiredKey ->
       forall ek, expiredKey (globals s) = Some ek ->
         k = ek /\ exp = Unix (ExpiresAt ek)).
Proof.
  intros Hm Htok.
  destruct (issued_from_selection s r str Hm Htok) as (k & exp & s1 & Hsel & Hsign).
  exists k, exp, s1, (fst (newToken k exp s1)).
  split; [exact Hsel|]. split; [reflexivity|]. split; [exact Hsign|].
  split; [apply newToken_exp|].
  destruct (selectKey_cases s r)
    as [(ek & Hsc & He & Hsel') | [(vk & Hor & Hv & Hsel') | (_ & _ & Hsel')]];
    rewrite Hsel in Hsel'; [| |discriminate Hsel'];
    injection Hsel' as -> -> ->.
  - split.
    + intros [Hn | Hnone]; congruence.
    + intros _ ek' He'. rewrite He in He'. injection He' as <-. now split.
  - split.
    + intros _. split; [exact Hv|]. split; [reflexivity | apply Unix_add_hour].
    + intros Hf ek' He'. destruct Hor as [Hn | Hnone]; congruence.
Qed.

Lemma expiry_claim_follows_selected_key_witness :
  exists tok,
    Jwt.Claims tok !! "exp" = Some (Jwt.ClaimInt (7200 + 3600)) /\
    signFunc (globals Sample.started) Sample.key1 Jwt.SigningMethodRS256 tok
    = ("kid-active", None).
Proof.
  destruct (expiry_claim_follows_selected_key Sample.started Sample.post "kid-active")
    as (k & exp & s1 & tok & _ & _ & Hsign & Hexp & Hnormal & _);
    [reflexivity | reflexivity |].
  destruct (Hnormal (or_introl eq_refl)) as (Hk & _ & Hsec).
  injection Hk as <-.
  exists tok. split; [|exact Hsign].
  rewrite Hexp, Hsec. reflexivity.
Defined.

Example fallback_expiry_claim :
  fst (selectKey (globals Sample.activeOnly) Sample.postExpired Sample.activeOnly)
  = Some (Sample.active, 7200 + 3600) /\
  expiredKey (globals Sample.activeOnly) = None /\
  issuedToken (issue Sample.activeOnly Sample.postExpired) = Some "kid-active".
Proof. repeat split. Qed.

(** C3 as the specification words it fails: with only the active key set,
    a request with [expired=true] succeeds, and there is no expired key
    whose expiry the claim could equal (the claim is one hour ahead). *)
Lemma forced_expiry_claim_without_expired_key :
  ~ expiryClaimByScenario Sample.activeOnly Sample.postExpired.
Proof.
  intros Hclaim.
  destruct Hclaim as (k & exp & s1 & tok & _ & _ & Hsc); [reflexivity | |].
  - vm_compute. discriminate.
  - change (scenario Sample.postExpired) with forcedExpiredKey in Hsc.
    destruct Hsc as (ek & He & _). discriminate He.
Qed.

(** C4, as the code has it. The header of the token of a successful
    issuance carries the identifier of the key selected for signing: the
    active key in the normal scenario, the expired key in the
    forced-expired scenario when that key is set, and the active key in
    the forced-expired scenario when it is not. *)
Theorem header_kid_is_selected_key (s : State) (r : Http.Request) (str : string) :
  Http.Method r = "POST" ->
  issuedToken (issue s r) = Some str ->
  exists k exp s1 tok,
    selectKey (globals s) r s = (Some (k, exp), s1) /\
    fst (newToken k exp s1) = tok /\
    signFunc (globals s) (PrivateKey k) Jwt.SigningMethodRS256 tok = (str, None) /\
    Jwt.Header tok !! "kid" = Some (Kid k) /\
    (scenario r = normal -> validKey (globals s) = Some k) /\
    (scenario r = forcedExpiredKey ->
       match expiredKey (globals s) with
       | Some ek => k = ek
       | None => validKey (globals s) = Some k
       end).
Proof.
  intros Hm Htok.
  destruct (issued_from_selection s r str Hm Htok) as (k & exp & s1 & Hsel & Hsign).
  exists k, exp, s1, (fst (newToken k exp s1)).
  split; [exact Hsel|]. split; [reflexivity|]. split; [exact Hsign|].
  split; [apply newToken_kid|].
  destruct (selectKey_cases s r)
    as [(ek & Hsc & He & Hsel') | [(vk & Hor & Hv & Hsel') | (_ & _ & Hsel')]];
    rewrite Hsel in Hsel'; [| |discriminate Hsel'];
    injection Hsel' as -> -> ->.
  - split; [congruence|]. intros _. now rewrite He.
  - split; [intros _; exact Hv|].
    intros Hf. destruct Hor as [Hn | Hnone]; [congruence|]. now rewrite Hnone.
Qed.

Lemma header_kid_is_selected_key_witness :
  exists tok,
    Jwt.Header tok !! "kid" = Some "kid-expired" /\
    signFunc (globals Sample.started) Sample.key2 Jwt.SigningMethodRS256 tok
    = ("kid-expired", None).
Proof.
  destruct (header_kid_is_selected_key Sample.started Sample.postExpired "kid-expired")
    as (k & exp & s1 & tok & _ & _ & Hsign & Hkid & _ & Hforced);
    [reflexivity | reflexivity |].
  specialize (Hforced eq_refl). cbn in Hforced. subst k.
  exists tok. split; [exact Hkid | exact Hsign].
Defined.

(** C4 as the specification words it fails: with only the active key set,
    a request with [expired=true] succeeds with the identifier of the
    active key in the header; no expired key is there to match. *)
Lemma forced_header_kid_without_expired_key :
  ~ headerKidByScenario Sample.activeOnly Sample.postExpired.
Proof.
  intros Hclaim.
  destruct Hclaim as (k & exp & s1 & tok & _ & _ & _ & Hsc); [reflexivity | |].
  - vm_compute. discriminate.
  - change (scenario Sample.postExpired) with forcedExpiredKey in Hsc.
    discriminate Hsc.
Qed.

(** C7. With neither key set, every issuance request, in either scenario
    and at any time, fails with NoKeyAvailable and produces no token; the
    state, clock included, is left as it was. *)
Theorem no_keys_no_token (s : State) (r : Http.Request) :
  Http.Method r = "POST" ->
  validKey (globals s) = None ->
  expiredKey (globals s) = None ->
  NoKeyAvailable (issue s r) /\
  issuedToken (issue s r) = None /\
  snd (authHandler Http.NewRecorder r s) = s.
Proof.
  intros Hm Hv He.
  pose proof (selectKey_active r s (or_intror He)) as Hsel. rewrite Hv in Hsel.
  rewrite (issue_no_key s r s Hm Hsel).
  split; [split; reflexivity|]. split; [reflexivity|].
  now rewrite authHandler_post, Hsel by exact Hm.
Qed.

Lemma no_keys_no_token_witness :
  NoKeyAvailable (issue Sample.empty Sample.post) /\
  issuedToken (issue Sample.empty Sample.postExpired) = None.
Proof.
  split.
  - apply (no_keys_no_token Sample.empty Sample.post); reflexivity.
  - apply (no_keys_no_token Sample.empty Sample.postExpired); reflexivity.
Defined.

Lemma authHandler_globals (w : Http.ResponseWriter) (r : Http.Request) (s : State) :
  globals (snd (authHandler w r s)) = globals s.
Proof.
  unfold authHandler.
  destruct (negb _); [reflexivity|].
  unfold bind at 1. unfold getGlobals. unfold bind at 1.
  pose proof (selectKey_globals r s) as Hg.
  destruct (selectKey (globals s) r s) as [[[k exp]|] s1]; cbn [snd] in Hg;
    [|exact Hg].
  unfold bind. pose proof (newToken_globals k exp s1) as Hg'.
  destruct (newToken k exp s1) as [tok s2]. cbn [snd] in Hg'.
  destruct (signFunc _ _ _ _) as [str [err|]]; cbn [snd ret]; congruence.
Qed.

Lemma keyAvailable_selects (s : State) (r : Http.Request) :
  keyAvailable (globals s) r ->
  exists k exp s1, selectKey (globals s) r s = (Some (k, exp), s1).
Proof.
  intros Hk.
  destruct (selectKey_cases s r)
    as [(ek & _ & _ & Hsel) | [(vk & _ & _ & Hsel) | (Hor & Hv & _)]]; eauto.
  exfalso. destruct Hk as [Hk | [Hq Hk]]; [congruence|].
  destruct Hor as [Hn | Hnone]; [|congruence].
  apply scenario_normal in Hn. contradiction.
Qed.

Lemma selectKey_same_key (g g' : Globals) (r : Http.Request) (s s' : State)
    (k : KeyPair) (exp : Z) (s1 : State) :
  validKey g' = validKey g ->
  expiredKey g' = expiredKey g ->
  selectKey g r s = (Some (k, exp), s1) ->
  exists exp' s1', selectKey g' r s' = (Some (k, exp'), s1').
Proof.
  intros Hv He. unfold selectKey. rewrite Hv, He.
  destruct (negb _), (expiredKey g) as [ek|], (validKey g) as [vk|];
    unfold bind, time_Now, ret; intros Hsel; try discriminate Hsel;
    injection Hsel as <- _ _; eauto.
Qed.

(** C8. When the call of the signing capability that a request makes
    fails, for whatever reason and whatever the capability does on other
    inputs, issuance fails with SigningFailure and produces no token. The
    package-level variables are what they were: with a signing capability
    put in place afterwards, the same request selects the same key again
    and is answered with the token that capability returns, whenever its
    call succeeds. *)
Theorem signing_failure_isolated
    (s : State) (r : Http.Request) (k : KeyPair) (exp : Z) (s1 : State) :
  Http.Method r = "POST" ->
  selectKey (globals s) r s = (Some (k, exp), s1) ->
  snd (signFunc (globals s) (PrivateKey k) Jwt.SigningMethodRS256
         (fst (newToken k exp s1))) <> None ->
  SigningFailure (issue s r) /\
  issuedToken (issue s r) = None /\
  globals (snd (authHandler Http.NewRecorder r s)) = globals s /\
  (forall sign,
     exists exp' s1',
       selectKey (globals (withSignFunc sign (snd (authHandler Http.NewRecorder r s)))) r
         (withSignFunc sign (snd (authHandler Http.NewRecorder r s)))
       = (Some (k, exp'), s1') /\
       forall str,
         sign (PrivateKey k) Jwt.SigningMethodRS256 (fst (newToken k exp' s1'))
         = (str, None) ->
         issuedToken
           (issue (withSignFunc sign (snd (authHandler Http.NewRecorder r s))) r)
         = Some str).
Proof.
  intros Hm Hsel Hfail.
  rewrite (issue_selected s r k exp s1 Hm Hsel).
  destruct (answer_signed
              (signFunc (globals s) (PrivateKey k) Jwt.SigningMethodRS256
                 (fst (newToken k exp s1)))) as [_ Hfailed].
  destruct (Hfailed Hfail) as [Hsf Hnone].
  split; [exact Hsf|]. split; [exact Hnone|].
  split; [apply authHandler_globals|].
  intros sign.
  set (s' := withSignFunc sign (snd (authHandler Http.NewRecorder r s))).
  assert (Hv : validKey (globals s') = validKey (globals s)).
  { unfold s', withSignFunc. cbn [globals validKey]. now rewrite authHandler_globals. }
  assert (He : expiredKey (globals s') = expiredKey (globals s)).
  { unfold s', withSignFunc. cbn [globals expiredKey]. now rewrite authHandler_globals. }
  destruct (selectKey_same_key (globals s) (globals s') r s s' k exp s1 Hv He Hsel)
    as (exp' & s1' & Hsel').
  exists exp', s1'. split; [exact Hsel'|].
  intros str Hok. rewrite (issue_selected s' r k exp' s1' Hm Hsel').
  unfold s' at 1. cbn [withSignFunc globals signFunc].
  apply answer_signed. exact Hok.
Qed.

Lemma signing_failure_isolated_witness :
  SigningFailure (issue (withSignFunc Sample.signBroken Sample.started) Sample.post) /\
  issuedToken
    (issue (withSignFunc Sample.signKid
              (snd (authHandler Http.NewRecorder Sample.post
                      (withSignFunc Sample.signBroken Sample.started))))
           Sample.post) = Some "kid-active".
Proof.
  destruct (signing_failure_isolated
              (withSignFunc Sample.signBroken Sample.started) Sample.post
              Sample.active (7200 + 3600)
              (snd (time_Now (withSignFunc Sample.signBroken Sample.started))))
    as (Hfail & _ & _ & Hnext).
  - reflexivity.
  - reflexivity.
  - discriminate.
  - split; [exact Hfail|].
    destruct (Hnext Sample.signKid) as (exp' & s1' & _ & Htok).
    apply Htok. reflexivity.
Defined.

Lemma authHandler_request_ext (w : Http.ResponseWriter) (r r' : Http.Request) (s : State) :
  Http.Method r' = Http.Method r ->
  String.eqb (Http.Get (Http.Query r') "expired") ""
  = String.eqb (Http.Get (Http.Query r) "expired") "" ->
  authHandler w r' s = authHandler w r s.
Proof.
  intros Hm Hq. unfold authHandler, selectKey. rewrite Hm, Hq. reflexivity.
Qed.

(** C10. Any non-empty value of the [expired] parameter asks for the
    forced-expired scenario: the handler answers it as it answers any
    other non-empty value, and when the expired key is set the answer to a
    POST is that of signing, with the expired key, a token that carries
    that key's identifier and expiry. A request without the parameter, or
    whose first value for it is empty, asks for the normal scenario,
    whatever the expired slot holds: the answer to a POST is that of
    signing, with the active key, a token that carries the active key's
    identifier and an expiry one hour ahead, or "No keys available" when
    the active key is not set. *)
Theorem expired_parameter_selects_scenario (s : State) (r : Http.Request) :
  (forall r' w,
     Http.Method r' = Http.Method r ->
     Http.Get (Http.Query r) "expired" <> "" ->
     Http.Get (Http.Query r') "expired" <> "" ->
     authHandler w r' s = authHandler w r s) /\
  (Http.Get (Http.Query r) "expired" <> "" ->
     scenario r = forcedExpiredKey /\
     forall ek, expiredKey (globals s) = Some ek ->
       selectKey (globals s) r s = (Some (ek, Unix (ExpiresAt ek)), s)) /\
  (Http.Query r !! "expired" = None \/
   Http.Query r !! "expired" = Some [] \/
   (exists rest, Http.Query r !! "expired" = Some ("" :: rest)) ->
     Http.Get (Http.Query r) "expired" = "") /\
  (Http.Get (Http.Query r) "expired" = "" ->
     scenario r = normal /\
     selectKey (globals s) r s =
     match validKey (globals s) with
     | Some vk => (Some (vk, Unix (Add (clockNow s) Hour)), snd (time_Now s))
     | None => (None, s)
     end) /\
  (Http.Method r = "POST" ->
   forall v rest ek,
     Http.Query r !! "expired" = Some (v :: rest) -> v <> "" ->
     expiredKey (globals s) = Some ek ->
     let tok := fst (newToken ek (Unix (ExpiresAt ek)) s) in
     issue s r = answer (signFunc (globals s) (PrivateKey ek)
                           Jwt.SigningMethodRS256 tok) /\
     Jwt.Header tok !! "kid" = Some (Kid ek) /\
     Jwt.Claims tok !! "exp" = Some (Jwt.ClaimInt (Unix (ExpiresAt ek))) /\
     (forall str,
        signFunc (globals s) (PrivateKey ek) Jwt.SigningMethodRS256 tok = (str, None) ->
        issuedToken (issue s r) = Some str)) /\
  (Http.Method r = "POST" ->
   Http.Query r !! "expired" = None \/
   Http.Query r !! "expired" = Some [] \/
   (exists rest, Http.Query r !! "expired" = Some ("" :: rest)) ->
   (forall vk, validKey (globals s) = Some vk ->
      let tok := fst (newToken vk (Unix (Add (clockNow s) Hour)) (snd (time_Now s))) in
      issue s r = answer (signFunc (globals s) (PrivateKey vk)
                            Jwt.SigningMethodRS256 tok) /\
      Jwt.Header tok !! "kid" = Some (Kid vk) /\
      Jwt.Claims tok !! "exp" = Some (Jwt.ClaimInt (Unix (clockNow s) + 3600)) /\
      (forall str,
         signFunc (globals s) (PrivateKey vk) Jwt.SigningMethodRS256 tok = (str, None) ->
         issuedToken (issue s r) = Some str)) /\
   (validKey (globals s) = None ->
      NoKeyAvailable (issue s r) /\ issuedToken (issue s r) = None)).
Proof.
  assert (Hempty : Http.Query r !! "expired" = None \/
                   Http.Query r !! "expired" = Some [] \/
                   (exists rest, Http.Query r !! "expired" = Some ("" :: rest)) ->
                   Http.Get (Http.Query r) "expired" = "").
  { unfold Http.Get. intros [-> | [-> | [rest ->]]]; reflexivity. }
  split; [|split; [|split; [|split; [|split]]]].
  - intros r' w Hm Hq Hq'. apply authHandler_request_ext; [exact Hm|].
    destruct (String.eqb_spec (Http.Get (Http.Query r') "expired") "");
      destruct (String.eqb_spec (Http.Get (Http.Query r) "expired") "");
      congruence.
  - intros Hq. split; [now apply scenario_forced|].
    intros ek He. now apply selectKey_forced.
  - exact Hempty.
  - intros Hq. split; [now apply scenario_normal|].
    apply selectKey_active. now left.
  - intros Hm v rest ek Hq Hv He. cbv zeta.
    assert (Hget : Http.Get (Http.Query r) "expired" <> "").
    { unfold Http.Get. now rewrite Hq. }
    pose proof (selectKey_forced r s ek Hget He) as Hsel.
    rewrite (issue_selected s r _ _ _ Hm Hsel).
    split; [reflexivity|]. split; [apply newToken_kid|].
    split; [apply newToken_exp | apply answer_signed].
  - intros Hm Hq. apply Hempty in Hq.
    pose proof (selectKey_active r s (or_introl Hq)) as Hsel. split.
    + intros vk Hv. cbv zeta. rewrite Hv in Hsel.
      rewrite (issue_selected s r _ _ _ Hm Hsel).
      split; [reflexivity|]. split; [apply newToken_kid|].
      split; [rewrite <- Unix_add_hour; apply newToken_exp | apply answer_signed].
    + intros Hv. rewrite Hv in Hsel. rewrite (issue_no_key s r _ Hm Hsel).
      repeat split.
Qed.

Lemma expired_parameter_selects_scenario_witness :
  authHandler Http.NewRecorder Sample.postExpired Sample.started
  = authHandler Http.NewRecorder Sample.postExpiredOne Sample.started /\
  fst (selectKey (globals Sample.started) Sample.postExpiredOne Sample.started)
  = Some (Sample.expired, 3600) /\
  Http.Get (Http.Query Sample.post) "expired" = "" /\
  fst (selectKey (globals Sample.started) Sample.post Sample.started)
  = Some (Sample.active, 7200 + 24 * 3600 + 3600 - 24 * 3600) /\
  issuedToken (issue Sample.started Sample.postExpiredOne) = Some "kid-expired" /\
  issuedToken (issue Sample.started Sample.post) = Some "kid-active".
Proof.
  destruct (expired_parameter_selects_scenario Sample.started Sample.postExpiredOne)
    as (Hany & Hforced & _ & _ & Hsigned & _).
  destruct (expired_parameter_selects_scenario Sample.started Sample.post)
    as (_ & _ & Habsent & Hnormal & _ & Hplain).
  split; [|split; [|split; [|split; [|split]]]].
  - apply Hany; [reflexivity | vm_compute; discriminate | vm_compute; discriminate].
  - destruct Hforced as [_ Hsel]; [vm_compute; discriminate|].
    rewrite (Hsel Sample.expired eq_refl). reflexivity.
  - apply Habsent. left. reflexivity.
  - destruct Hnormal as [_ Hsel]; [reflexivity|]. rewrite Hsel. reflexivity.
  - destruct (Hsigned eq_refl "1" [] Sample.expired) as (_ & _ & _ & Htok);
      [reflexivity | discriminate | reflexivity |].
    apply Htok. reflexivity.
  - destruct (Hplain eq_refl) as [Hactive _]; [left; reflexivity|].
    destruct (Hactive Sample.active eq_refl) as (_ & _ & _ & Htok).
    apply Htok. reflexivity.
Defined.

(** ** Initialization *)

(** C6. With the production generator, when both draws of key material
    succeed, [initKeys] returns no error and leaves exactly the two slots
    filled: an active key that expires 24 hours after the clock reading
    taken for it, strictly later than that reading, and an expired key that
    expires one hour before the reading taken for it, strictly earlier than
    that reading. When the first or the second draw fails, [initKeys]
    returns that error; and with any generator that fails, [initKeys]
    returns an error. *)
Theorem initKeys_two_key_pairs (s : State) :
  let w := world s in
  let t1 := wall w (reads w) in
  let t2 := wall w (S (reads w)) in
  let d := draws w in
  (generateKeyPairFunc (globals s) = generateKeyPair ->
     (forall k1 k2,
        rsaGenerateKey w d = inl k1 ->
        rsaGenerateKey w (S (S d)) = inl k2 ->
        exists s1 vk ek,
          initKeys s = (None, s1) /\
          validKey (globals s1) = Some vk /\
          expiredKey (globals s1) = Some ek /\
          PrivateKey vk = k1 /\ PrivateKey ek = k2 /\
          ExpiresAt vk = Add t1 (24 * Hour) /\ t1 < ExpiresAt vk /\
          ExpiresAt ek = Add t2 (- Hour) /\ ExpiresAt ek < t2) /\
     (forall e, rsaGenerateKey w d = inr e -> fst (initKeys s) = Some e) /\
     (forall k1 e,
        rsaGenerateKey w d = inl k1 ->
        rsaGenerateKey w (S (S d)) = inr e ->
        fst (initKeys s) = Some e)) /\
  ((forall t w', snd (fst (generateKeyPairFunc (globals s) t w')) <> None) ->
   fst (initKeys s) <> None).
Proof.
  cbv zeta. split.
  - intros Hgen. split; [|split].
    + intros k1 k2 H1 H2.
      unfold initKeys, bind, callGenerate, time_Now, setValidKey, setExpiredKey, ret.
      cbn [globals world fst snd]. rewrite Hgen.
      unfold generateKeyPair at 1. cbn [rsaGenerateKey draws]. rewrite H1.
      cbn [fst snd globals world generateKeyPairFunc]. rewrite Hgen.
      unfold generateKeyPair, draw. cbn [rsaGenerateKey draws uuidNew wall reads].
      rewrite H2. cbn [fst snd].
      eexists _, _, _. split; [reflexivity|]. cbn.
      split; [reflexivity|]. split; [reflexivity|]. cbn [PrivateKey ExpiresAt].
      repeat split; unfold Add, Hour, Minute, Second, Nanosecond; lia.
    + intros e H1.
      unfold initKeys, bind, callGenerate, time_Now, setValidKey, setExpiredKey, ret.
      cbn [globals world fst snd]. rewrite Hgen.
      unfold generateKeyPair. cbn [rsaGenerateKey draws]. rewrite H1. reflexivity.
    + intros k1 e H1 H2.
      unfold initKeys, bind, callGenerate, time_Now, setValidKey, setExpiredKey, ret.
      cbn [globals world fst snd]. rewrite Hgen.
      unfold generateKeyPair at 1. cbn [rsaGenerateKey draws]. rewrite H1.
      cbn [fst snd globals world generateKeyPairFunc]. rewrite Hgen.
      unfold generateKeyPair, draw. cbn [rsaGenerateKey draws uuidNew wall reads].
      rewrite H2. reflexivity.
  - intros Hfail.
    unfold initKeys, bind, callGenerate, time_Now, setValidKey, setExpiredKey, ret.
    cbn [globals world fst snd].
    match goal with
    | |- context [generateKeyPairFunc (globals s) ?t ?w'] =>
        pose proof (Hfail t w') as Hf;
        destruct (generateKeyPairFunc (globals s) t w') as [[k [e|]] w1]
    end; cbn [fst snd] in *; [discriminate | congruence].
Qed.

Lemma initKeys_two_key_pairs_witness :
  (exists s1, initKeys Sample.empty = (None, s1) /\
              validKey (globals s1) = Some Sample.active /\
              expiredKey (globals s1) = Some Sample.expired) /\
  fst (initKeys
         {| globals := {| validKey := None; expiredKey := None;
                          generateKeyPairFunc := Sample.generateBroken;
                          signFunc := Sample.signKid |};
            world := Sample.world0 |}) <> None.
Proof.
  split.
  - destruct (initKeys_two_key_pairs Sample.empty) as ((Hok & _ & _) & _);
      [reflexivity|].
    destruct (Hok Sample.key1 Sample.key2 eq_refl eq_refl)
      as (s1 & vk & ek & Hrun & _).
    exists s1. split; [exact Hrun|].
    injection Hrun as <-. split; reflexivity.
  - apply initKeys_two_key_pairs. intros t w'. discriminate.
Defined.

(** * Beyond the key lifecycle: the rest of main.go *)

(** ** Method checks *)

Lemma contentType_Error (w : Http.ResponseWriter) (msg : string) (code : Z) :
  contentType (Http.Error w msg code) = Some "text/plain; charset=utf-8".
Proof.
  unfold contentType, Http.Error, Http.Write, Http.WriteHeader, Http.HeaderSet,
    Http.HeaderDel. cbn [Http.header Http.status Http.body].
  destruct (Http.status w); cbn [Http.header Http.status];
    (rewrite lookup_insert_ne by discriminate; apply lookup_insert_eq).
Qed.

Lemma method_mismatch (m expected : string) :
  m <> expected -> negb (String.eqb m expected) = true.
Proof. intros Hne. now destruct (String.eqb_spec m expected). Qed.

(** A discovery request with any method other than GET (the comparison is
    exact, so "get" is one of them) is answered 405 "Method not allowed" as
    plain text: nothing of the registry is disclosed, the clock is not read
    and the state is left as it was. *)
Theorem jwksHandler_rejects_other_methods
    (w : Http.ResponseWriter) (r : Http.Request) (s : State) :
  Http.Method r <> "GET" ->
  jwksHandler w r s = (Http.Error w "Method not allowed" 405, s) /\
  MethodNotAllowed (fst (jwksHandler Http.NewRecorder r s)) /\
  contentType (fst (jwksHandler w r s)) = Some "text/plain; charset=utf-8" /\
  documentKeys (fst (jwksHandler Http.NewRecorder r s)) = None.
Proof.
  intros Hm.
  assert (Hrun : forall w', jwksHandler w' r s = (Http.Error w' "Method not allowed" 405, s)).
  { intros w'. unfold jwksHandler. now rewrite (method_mismatch _ _ Hm). }
  split; [apply Hrun|]. rewrite !Hrun. cbn [fst].
  split; [split; reflexivity|]. split; [apply contentType_Error | reflexivity].
Qed.

Lemma jwksHandler_rejects_other_methods_witness :
  MethodNotAllowed (fst (jwksHandler Http.NewRecorder Sample.post Sample.started)) /\
  MethodNotAllowed
    (fst (jwksHandler Http.NewRecorder
            {| Http.Method := "get"; Http.Query := ∅ |} Sample.started)).
Proof.
  split.
  - apply (jwksHandler_rejects_other_methods Http.NewRecorder Sample.post Sample.started).
    discriminate.
  - apply (jwksHandler_rejects_other_methods Http.NewRecorder
             {| Http.Method := "get"; Http.Query := ∅ |} Sample.started).
    discriminate.
Defined.

(** An issuance request with any method other than POST is answered 405
    "Method not allowed" as plain text, whatever the [expired] parameter
    says: no key is selected, the signing capability is not called, no
    token is produced and the state is left as it was. *)
Theorem authHandler_rejects_other_methods
    (w : Http.ResponseWriter) (r : Http.Request) (s : State) :
  Http.Method r <> "POST" ->
  authHandler w r s = (Http.Error w "Method not allowed" 405, s) /\
  MethodNotAllowed (issue s r) /\
  contentType (issue s r) = Some "text/plain; charset=utf-8" /\
  issuedToken (issue s r) = None /\
  (forall sign, issue (withSignFunc sign s) r = issue s r).
Proof.
  intros Hm.
  assert (Hrun : forall w' s', authHandler w' r s' = (Http.Error w' "Method not allowed" 405, s')).
  { intros w' s'. unfold authHandler. now rewrite (method_mismatch _ _ Hm). }
  split; [apply Hrun|]. unfold issue. rewrite !Hrun. cbn [fst].
  split; [split; reflexivity|]. split; [apply contentType_Error|].
  split; [reflexivity|]. intros sign. now rewrite Hrun.
Qed.

Lemma authHandler_rejects_other_methods_witness :
  MethodNotAllowed
    (issue Sample.started
       {| Http.Method := "GET"; Http.Query := {[ "expired" := ["true"] ]} |}).
Proof.
  apply (authHandler_rejects_other_methods Http.NewRecorder
           {| Http.Method := "GET"; Http.Query := {[ "expired" := ["true"] ]} |}
           Sample.started).
  discriminate.
Defined.

(** ** The three outcomes of issuance *)

Lemma selects_keyAvailable (s : State) (r : Http.Request) (k : KeyPair) (exp : Z) (s1 : State) :
  selectKey (globals s) r s = (Some (k, exp), s1) -> keyAvailable (globals s) r.
Proof.
  intros Hsel.
  destruct (selectKey_cases s r)
    as [(ek & Hsc & He & _) | [(vk & _ & Hv & _) | (_ & _ & Hsel')]].
  - right. split; [now apply scenario_forced | congruence].
  - left. congruence.
  - congruence.
Qed.

Lemma contentType_answer (signed : string * option error) :
  contentType (answer signed) =
  Some (match snd signed with
        | Some _ => "text/plain; charset=utf-8"
        | None => "application/json"
        end).
Proof.
  destruct signed as [str [err|]]; cbn [answer snd].
  - apply contentType_Error.
  - reflexivity.
Qed.

(** Every POST request to [authHandler] ends in exactly one of three ways:
    500 "No keys available" (exactly when no key is at hand for the
    request), 500 "Failed to sign token", or 200 with a token. The two
    failures are plain text and carry no token; the JSON content type
    announced at the start of the handler survives on success only. *)
Theorem issuance_outcomes (s : State) (r : Http.Request) :
  Http.Method r = "POST" ->
  (NoKeyAvailable (issue s r) <-> ~ keyAvailable (globals s) r) /\
  (issuedToken (issue s r) = None <->
     NoKeyAvailable (issue s r) \/ SigningFailure (issue s r)) /\
  ~ (NoKeyAvailable (issue s r) /\ SigningFailure (issue s r)) /\
  (contentType (issue s r) = Some "application/json" <->
     issuedToken (issue s r) <> None) /\
  (issuedToken (issue s r) = None ->
     contentType (issue s r) = Some "text/plain; charset=utf-8") /\
  (forall str, issuedToken (issue s r) = Some str ->
     Http.status (issue s r) = Some 200 /\
     Http.body (issue s r) = [Http.JsonDoc (Json.Obj [("token", Json.Str str)])]).
Proof.
  intros Hm.
  destruct (selectKey (globals s) r s) as [[[k exp]|] s1] eqn:Hsel.
  - pose proof (selects_keyAvailable s r k exp s1 Hsel) as Hkey.
    rewrite (issue_selected s r k exp s1 Hm Hsel).
    destruct (signFunc _ _ _ _) as [str [err|]]; cbn [answer].
    + rewrite contentType_Error.
      repeat match goal with |- _ /\ _ => split end.
      * split; [intros [_ Hb]; discriminate Hb | tauto].
      * split; [intros _; right; split; reflexivity | reflexivity].
      * intros [[_ Hb] _]. discriminate Hb.
      * split; [discriminate | intros Hne; now contradiction Hne].
      * reflexivity.
      * discriminate.
    + repeat match goal with |- _ /\ _ => split end.
      * split; [intros [Hst _]; discriminate Hst | tauto].
      * split; [discriminate | intros [[Hst _] | [Hst _]]; discriminate Hst].
      * intros [[Hst _] _]. discriminate Hst.
      * split; [discriminate | reflexivity].
      * discriminate.
      * intros str' [= <-]. split; reflexivity.
  - rewrite (issue_no_key s r s1 Hm Hsel). rewrite contentType_Error.
    assert (Hnokey : ~ keyAvailable (globals s) r).
    { intros Hkey. destruct (keyAvailable_selects s r Hkey) as (k & exp & s2 & Hsel').
      congruence. }
    repeat match goal with |- _ /\ _ => split end.
    + split; [intros _; exact Hnokey | intros _; split; reflexivity].
    + split; [intros _; left; split; reflexivity | reflexivity].
    + intros [_ [_ Hb]]. discriminate Hb.
    + split; [discriminate | intros Hne; now contradiction Hne].
    + reflexivity.
    + discriminate.
Qed.

Lemma issuance_outcomes_witness :
  ~ keyAvailable (globals Sample.empty) Sample.postExpired /\
  contentType (issue Sample.started Sample.post) = Some "application/json" /\
  contentType (issue (withSignFunc Sample.signBroken Sample.started) Sample.post)
  = Some "text/plain; charset=utf-8".
Proof.
  destruct (issuance_outcomes Sample.empty Sample.postExpired eq_refl)
    as (Hnone & _).
  destruct (issuance_outcomes Sample.started Sample.post eq_refl)
    as (_ & _ & _ & Hjson & _).
  destruct (issuance_outcomes (withSignFunc Sample.signBroken Sample.started)
              Sample.post eq_refl)
    as (_ & _ & _ & _ & Hplain & _).
  split; [|split].
  - apply Hnone. split; reflexivity.
  - apply Hjson. discriminate.
  - apply Hplain. reflexivity.
Defined.

(** ** What a discovery request can see *)

Lemma toJWK_public (kp kp' : KeyPair) :
  Kid kp = Kid kp' -> PublicKey kp = PublicKey kp' -> toJWK kp = toJWK kp'.
Proof. intros Hk Hp. unfold toJWK. now rewrite Hk, Hp. Qed.

(** The answer to a discovery request depends on the clock and on the
    identifier, public key and expiry of the active key, and on nothing
    else: private key material, the expired slot, the signing capability
    and the generator have no influence on it. *)
Theorem discovery_sees_public_material_only (s s' : State) :
  samePublicView s s' -> discover s = discover s'.
Proof.
  intros [Hclock Hkeys]. unfold discover.
  rewrite !jwksHandler_get by reflexivity.
  destruct (validKey (globals s)) as [vk|], (validKey (globals s')) as [vk'|];
    try contradiction; [|reflexivity].
  destruct Hkeys as (Hk & Hp & He). cbn [fst].
  now rewrite Hclock, He, (toJWK_public vk vk' Hk Hp).
Qed.

Lemma discovery_sees_public_material_only_witness :
  discover
    {| globals := {| validKey := Some (withPrivateKey Sample.key2 Sample.active);
                     expiredKey := None;
                     generateKeyPairFunc := Sample.generateBroken;
                     signFunc := Sample.signBroken |};
       world := Sample.world0 |}
  = discover Sample.started.
Proof.
  apply discovery_sees_public_material_only.
  split; [reflexivity|]. cbn. repeat split.
Defined.

(** Expiry is final. At the instant of its expiry and at every later one
    the active key is absent from the discovery document, and a document
    that is empty at one reading of the clock is empty at every later
    reading, as long as the registry is the same. *)
Theorem discovery_expiry_is_final (s s' : State) :
  globals s' = globals s ->
  clockNow s <= clockNow s' ->
  (forall vk, validKey (globals s) = Some vk -> ExpiresAt vk <= clockNow s ->
     records (discover s) = []) /\
  (records (discover s) = [] -> records (discover s') = []).
Proof.
  intros Hg Hle. rewrite !discover_records, Hg. split.
  - intros vk -> Hexp. unfold Before.
    destruct (Z.ltb_spec (clockNow s) (ExpiresAt vk)); [lia | reflexivity].
  - destruct (validKey (globals s)) as [vk|]; [|reflexivity].
    unfold Before.
    destruct (Z.ltb_spec (clockNow s) (ExpiresAt vk)); [discriminate|].
    intros _. destruct (Z.ltb_spec (clockNow s') (ExpiresAt vk)); [lia | reflexivity].
Qed.

Lemma discovery_expiry_is_final_witness :
  records (discover (withClock (Add Sample.T0 (24 * Hour)) Sample.started)) = [] /\
  records (discover (withClock (Add Sample.T0 (25 * Hour)) Sample.started)) = [].
Proof.
  destruct (discovery_expiry_is_final
              (withClock (Add Sample.T0 (24 * Hour)) Sample.started)
              (withClock (Add Sample.T0 (25 * Hour)) Sample.started))
    as [Hat Hlater]; [reflexivity | vm_compute; discriminate |].
  assert (Hempty : records (discover (withClock (Add Sample.T0 (24 * Hour)) Sample.started)) = []).
  { apply (Hat Sample.active); [reflexivity | vm_compute; discriminate]. }
  split; [exact Hempty | exact (Hlater Hempty)].
Defined.

(** ** Key generation and initialization *)

(** [generateKeyPair] returns either a key pair and no error, or no key
    pair and the error of [rsa.GenerateKey], never both and never neither.
    The key pair it returns carries the requested expiry, the public half
    of its own private key, and an identifier drawn after the key; a
    failure draws no identifier. The clock is not read. *)
Theorem generateKeyPair_result (t : Time) (w : World) :
  let '((kp, err), w') := generateKeyPair t w in
  reads w' = reads w /\ wall w' = wall w /\
  match kp, err with
  | Some k, None =>
      rsaGenerateKey w (draws w) = inl (PrivateKey k) /\
      PublicKey k = Rsa.Public (PrivateKey k) /\
      ExpiresAt k = t /\
      Kid k = uuidNew w (S (draws w)) /\
      draws w' = S (S (draws w))
  | None, Some e =>
      rsaGenerateKey w (draws w) = inr e /\ draws w' = S (draws w)
  | _, _ => False
  end.
Proof.
  unfold generateKeyPair.
  destruct (rsaGenerateKey w (draws w)) as [key|e]; cbn; repeat split.
Qed.

Lemma generateKeyPair_failure (t : Time) (w : World) (e : error) :
  rsaGenerateKey w (draws w) = inr e ->
  generateKeyPair t w = ((None, Some e), draw w).
Proof. intros H. unfold generateKeyPair. now rewrite H. Qed.

Lemma generateKeyPair_success (t : Time) (w : World) (key : Rsa.PrivateKey) :
  rsaGenerateKey w (draws w) = inl key ->
  generateKeyPair t w =
  ((Some {| Kid := uuidNew w (S (draws w)); PrivateKey := key;
            PublicKey := Rsa.Public key; ExpiresAt := t |}, None),
   draw (draw w)).
Proof. intros H. unfold generateKeyPair. now rewrite H. Qed.

Lemma initKeys_first_failure (s : State) (e : error) :
  generateKeyPairFunc (globals s) = generateKeyPair ->
  rsaGenerateKey (world s) (draws (world s)) = inr e ->
  initKeys s =
  (Some e,
   {| globals := {| validKey := None; expiredKey := expiredKey (globals s);
                    generateKeyPairFunc := generateKeyPairFunc (globals s);
                    signFunc := signFunc (globals s) |};
      world := {| wall := wall (world s); reads := S (reads (world s));
                  rsaGenerateKey := rsaGenerateKey (world s);
                  uuidNew := uuidNew (world s);
                  draws := S (draws (world s)) |} |}).
Proof.
  intros Hgen H1.
  unfold initKeys, bind, callGenerate, time_Now, setValidKey, setExpiredKey, ret.
  cbn [globals world fst snd]. rewrite Hgen.
  rewrite (generateKeyPair_failure _ _ e) by exact H1.
  cbn [fst snd globals]. rewrite ?Hgen. reflexivity.
Qed.

Lemma initKeys_second_failure (s : State) (k1 : Rsa.PrivateKey) (e : error) :
  generateKeyPairFunc (globals s) = generateKeyPair ->
  rsaGenerateKey (world s) (draws (world s)) = inl k1 ->
  rsaGenerateKey (world s) (S (S (draws (world s)))) = inr e ->
  initKeys s =
  (Some e,
   {| globals := {| validKey :=
                      Some {| Kid := uuidNew (world s) (S (draws (world s)));
                              PrivateKey := k1; PublicKey := Rsa.Public k1;
                              ExpiresAt := Add (clockNow s) (24 * Hour) |};
                    expiredKey := None;
                    generateKeyPairFunc := generateKeyPairFunc (globals s);
                    signFunc := signFunc (globals s) |};
      world := {| wall := wall (world s); reads := S (S (reads (world s)));
                  rsaGenerateKey := rsaGenerateKey (world s);
                  uuidNew := uuidNew (world s);
                  draws := S (S (S (draws (world s)))) |} |}).
Proof.
  intros Hgen H1 H2.
  unfold initKeys, bind, callGenerate, time_Now, setValidKey, setExpiredKey, ret, clockNow.
  cbn [globals world fst snd]. rewrite Hgen.
  rewrite (generateKeyPair_success _ _ k1) by exact H1.
  cbn [fst snd globals world generateKeyPairFunc]. rewrite ?Hgen.
  rewrite (generateKeyPair_failure _ _ e) by exact H2.
  cbn [fst snd globals]. rewrite ?Hgen. reflexivity.
Qed.

(** A failed [initKeys] does not restore the registry it found. When the
    first key cannot be generated the active slot is overwritten with nil,
    the expired slot keeps what it held, and the second generation is not
    attempted (one clock reading, one draw). When the second key cannot be
    generated the active slot holds the fresh key and the expired slot is
    overwritten with nil. *)
Theorem initKeys_failure_leaves_partial_registry (s : State) :
  generateKeyPairFunc (globals s) = generateKeyPair ->
  let d := draws (world s) in
  let s' := snd (initKeys s) in
  (forall e, rsaGenerateKey (world s) d = inr e ->
     validKey (globals s') = None /\
     expiredKey (globals s') = expiredKey (globals s) /\
     reads (world s') = S (reads (world s)) /\
     draws (world s') = S d) /\
  (forall k1 e, rsaGenerateKey (world s) d = inl k1 ->
     rsaGenerateKey (world s) (S (S d)) = inr e ->
     (exists vk, validKey (globals s') = Some vk /\ PrivateKey vk = k1 /\
                 ExpiresAt vk = Add (clockNow s) (24 * Hour)) /\
     expiredKey (globals s') = None /\
     reads (world s') = S (S (reads (world s))) /\
     draws (world s') = S (S (S d))).
Proof.
  intros Hgen. cbv zeta. split.
  - intros e H1. rewrite (initKeys_first_failure s e Hgen H1). repeat split.
  - intros k1 e H1 H2. rewrite (initKeys_second_failure s k1 e Hgen H1 H2).
    cbn [snd globals world validKey expiredKey reads draws].
    split; [|repeat split]. eexists. split; [reflexivity|]. split; reflexivity.
Qed.

Lemma initKeys_failure_leaves_partial_registry_witness :
  let broken := {| wall := fun _ => Sample.T0; reads := 0;
                   rsaGenerateKey := fun _ => inr "no entropy";
                   uuidNew := Sample.uuids; draws := 0 |} in
  validKey (globals (snd (initKeys {| globals := globals Sample.started;
                                      world := broken |}))) = None /\
  expiredKey (globals (snd (initKeys {| globals := globals Sample.started;
                                        world := broken |})))
  = Some Sample.expired.
Proof.
  cbv zeta.
  destruct (initKeys_failure_leaves_partial_registry
              {| globals := globals Sample.started;
                 world := {| wall := fun _ => Sample.T0; reads := 0;
                             rsaGenerateKey := fun _ => inr "no entropy";
                             uuidNew := Sample.uuids; draws := 0 |} |})
    as [Hfirst _]; [reflexivity|].
  destruct (Hfirst "no entropy" eq_refl) as (Hv & He & _).
  split; [exact Hv | rewrite He; reflexivity].
Defined.

(** ** Tokens and the clock *)













(** ** Serving *)

Lemma onlyClockRead_refl (s : State) : onlyClockRead 0 s s.
Proof. unfold onlyClockRead. repeat split; lia. Qed.

Lemma onlyClockRead_trans (n m : nat) (s1 s2 s3 : State) :
  onlyClockRead n s1 s2 -> onlyClockRead m s2 s3 -> onlyClockRead (n + m) s1 s3.
Proof.
  unfold onlyClockRead.
  intros (Hg & Hw & Hr & Hu & Hd & Hn) (Hg' & Hw' & Hr' & Hu' & Hd' & Hn').
  repeat split; try congruence; lia.
Qed.

Lemma onlyClockRead_weaken (n m : nat) (s s' : State) :
  (n <= m)%nat -> onlyClockRead n s s' -> onlyClockRead m s s'.
Proof.
  unfold onlyClockRead. intros Hle (Hg & Hw & Hr & Hu & Hd & Hn).
  repeat split; try assumption; lia.
Qed.

Lemma jwksHandler_onlyClockRead (w : Http.ResponseWriter) (r : Http.Request) (s : State) :
  onlyClockRead 1 s (snd (jwksHandler w r s)).
Proof.
  unfold jwksHandler. destruct (negb _).
  - apply (onlyClockRead_weaken 0); [lia | apply onlyClockRead_refl].
  - destruct s as [[vk ek gen sign] w0].
    cbv beta iota zeta delta [bind getGlobals time_Now ret globals validKey world].
    destruct vk as [vk|]; [destruct (Before _ _)|];
      unfold onlyClockRead; cbn; repeat split; lia.
Qed.

Lemma authHandler_onlyClockRead (w : Http.ResponseWriter) (r : Http.Request) (s : State) :
  onlyClockRead 2 s (snd (authHandler w r s)).
Proof.
  unfold authHandler. destruct (negb _).
  - apply (onlyClockRead_weaken 0); [lia | apply onlyClockRead_refl].
  - destruct s as [[vk ek gen sign] w0].
    cbv beta iota zeta delta
      [bind getGlobals selectKey newToken time_Now ret
       globals validKey expiredKey signFunc world].
    destruct (negb _), ek as [ek|], vk as [vk|]; cbn [fst snd];
      try (unfold onlyClockRead; cbn; repeat split; lia);
      match goal with
      | |- context [sign ?k ?m ?tok] => destruct (sign k m tok) as [str [err|]]
      end; unfold onlyClockRead; cbn; repeat split; lia.
Qed.

Lemma handler_onlyClockRead (e : Endpoint) (w : Http.ResponseWriter)
    (r : Http.Request) (s : State) :
  onlyClockRead 2 s (snd (handler e w r s)).
Proof.
  destruct e; cbn [handler].
  - apply (onlyClockRead_weaken 1); [lia | apply jwksHandler_onlyClockRead].
  - apply authHandler_onlyClockRead.
Qed.

Lemma serveAll_cons (e : Endpoint) (r : Http.Request)
    (rest : list (Endpoint * Http.Request)) (s : State) :
  serveAll ((e, r) :: rest) s =
  (fst (handler e Http.NewRecorder r s)
     :: fst (serveAll rest (snd (handler e Http.NewRecorder r s))),
   snd (serveAll rest (snd (handler e Http.NewRecorder r s)))).
Proof.
  cbn [serveAll]. unfold bind, ret.
  destruct (handler e Http.NewRecorder r s) as [w s1]. cbn [fst snd].
  destruct (serveAll rest s1) as [ws s2]. reflexivity.
Qed.

Lemma serveAll_onlyClockRead (reqs : list (Endpoint * Http.Request)) (s : State) :
  onlyClockRead (2 * length reqs) s (snd (serveAll reqs s)).
Proof.
  revert s. induction reqs as [|[e r] rest IH]; intros s.
  - apply onlyClockRead_refl.
  - rewrite serveAll_cons. cbn [fst snd length].
    replace (2 * S (length rest))%nat with (2 + 2 * length rest)%nat by lia.
    eapply onlyClockRead_trans; [apply handler_onlyClockRead | apply IH].
Qed.

Lemma jwksHandler_answered (r : Http.Request) (s : State) :
  answered (fst (jwksHandler Http.NewRecorder r s)).
Proof.
  unfold jwksHandler. destruct (negb _).
  - split; [right; left|]; reflexivity.
  - unfold bind, getGlobals, ret.
    destruct (validKey (globals s)) as [vk|].
    + unfold time_Now. destruct (Before _ _); (split; [left|]; reflexivity).
    + split; [left|]; reflexivity.
Qed.

Lemma authHandler_answered (r : Http.Request) (s : State) :
  answered (fst (authHandler Http.NewRecorder r s)).
Proof.
  destruct (String.eqb_spec (Http.Method r) "POST") as [Hm|Hm].
  - rewrite authHandler_post by exact Hm.
    destruct (selectKey (globals s) r s) as [[[k exp]|] s1].
    + destruct (newToken k exp s1) as [tok s2].
      destruct (signFunc _ _ _ _) as [str [err|]]; cbn [fst].
      * split; [right; right|]; reflexivity.
      * split; [left|]; reflexivity.
    + split; [right; right|]; reflexivity.
  - unfold authHandler. rewrite (method_mismatch _ _ Hm).
    split; [right; left|]; reflexivity.
Qed.

Lemma serveAll_answered (reqs : list (Endpoint * Http.Request)) (s : State) :
  Forall answered (fst (serveAll reqs s)).
Proof.
  revert s. induction reqs as [|[e r] rest IH]; intros s.
  - constructor.
  - rewrite serveAll_cons. cbn [fst]. constructor; [|apply IH].
    destruct e; cbn [handler];
      [apply jwksHandler_answered | apply authHandler_answered].
Qed.

(** Serving never writes the registry. After any sequence of requests to
    the two handlers, whatever their methods and parameters, the
    package-level variables (both keys, the generator and the signing
    capability) are what they were, no entropy has been drawn, and the
    clock has been read at most twice per request. Every request has got
    its answer: there is one writer per request, and each holds a status
    (200, 405 or 500) and a body of exactly one chunk. *)
Theorem serving_leaves_registry_untouched
    (reqs : list (Endpoint * Http.Request)) (s : State) :
  onlyClockRead (2 * length reqs) s (snd (serveAll reqs s)) /\
  length (fst (serveAll reqs s)) = length reqs /\
  Forall answered (fst (serveAll reqs s)).
Proof.
  split; [apply serveAll_onlyClockRead|]. split; [|apply serveAll_answered].
  revert s. induction reqs as [|[e r] rest IH]; intros s; [reflexivity|].
  rewrite serveAll_cons. cbn [fst length]. now rewrite IH.
Qed.

Lemma jwksHandler_not_NoKeyAvailable (r : Http.Request) (s : State) :
  ~ NoKeyAvailable (fst (jwksHandler Http.NewRecorder r s)).
Proof.
  unfold jwksHandler. destruct (negb _).
  - intros [Hst _]. discriminate Hst.
  - unfold bind, getGlobals, ret.
    destruct (validKey (globals s)) as [vk|].
    + unfold time_Now. destruct (Before _ _); intros [Hst _]; discriminate Hst.
    + intros [Hst _]. discriminate Hst.
Qed.

Lemma authHandler_not_NoKeyAvailable (r : Http.Request) (s : State) :
  validKey (globals s) <> None ->
  ~ NoKeyAvailable (fst (authHandler Http.NewRecorder r s)).
Proof.
  intros Hv.
  destruct (String.eqb_spec (Http.Method r) "POST") as [Hm|Hm].
  - destruct (keyAvailable_selects s r (or_introl Hv)) as (k & exp & s1 & Hsel).
    fold (issue s r). rewrite (issue_selected s r k exp s1 Hm Hsel).
    apply answer_not_NoKeyAvailable.
  - unfold authHandler. rewrite (method_mismatch _ _ Hm).
    intros [Hst _]. discriminate Hst.
Qed.

Lemma serveAll_not_NoKeyAvailable (reqs : list (Endpoint * Http.Request)) (s : State) :
  validKey (globals s) <> None ->
  Forall (fun w => ~ NoKeyAvailable w) (fst (serveAll reqs s)).
Proof.
  revert s. induction reqs as [|[e r] rest IH]; intros s Hv.
  - constructor.
  - rewrite serveAll_cons. cbn [fst]. constructor.
    + destruct e; cbn [handler];
        [apply jwksHandler_not_NoKeyAvailable | now apply authHandler_not_NoKeyAvailable].
    + apply IH. destruct (handler_onlyClockRead e Http.NewRecorder r s) as [Hg _].
      now rewrite Hg.
Qed.

(** [main] reaches [http.ListenAndServe] only when [initKeys] has returned
    no error, with the two routes and the address of the source; otherwise
    it ends in [log.Fatal] with the error of [initKeys]. With the
    production generator, the registry it serves from has both keys set,
    and they stay set through any sequence of requests: none of them is
    ever answered "No keys available". *)
Theorem main_serves_only_after_initKeys (s : State) :
  generateKeyPairFunc (globals s) = generateKeyPair ->
  match main s with
  | (LogFatal _ e, _) => fst (initKeys s) = Some e
  | (ListenAndServe addr routes, s1) =>
      initKeys s = (None, s1) /\
      addr = ":8080" /\
      routes = [("/.well-known/jwks.json", JwksEndpoint); ("/auth", AuthEndpoint)] /\
      exists vk ek,
        validKey (globals s1) = Some vk /\ expiredKey (globals s1) = Some ek /\
        forall reqs,
          validKey (globals (snd (serveAll reqs s1))) = Some vk /\
          expiredKey (globals (snd (serveAll reqs s1))) = Some ek /\
          Forall (fun w => ~ NoKeyAvailable w) (fst (serveAll reqs s1))
  end.
Proof.
  intros Hgen. unfold main, bind, ret.
  destruct (initKeys s) as [[e|] s1] eqn:Hinit; [reflexivity|].
  split; [reflexivity|]. split; [reflexivity|]. split; [reflexivity|].
  destruct (initKeys_production s s1 Hgen Hinit) as (vk & ek & Hv & He & _).
  exists vk, ek. split; [exact Hv|]. split; [exact He|].
  intros reqs.
  destruct (serveAll_onlyClockRead reqs s1) as [Hg _].
  rewrite Hg. split; [exact Hv|]. split; [exact He|].
  apply serveAll_not_NoKeyAvailable. congruence.
Qed.

Lemma main_serves_only_after_initKeys_witness :
  fst (main Sample.empty)
  = ListenAndServe ":8080"
      [("/.well-known/jwks.json", JwksEndpoint); ("/auth", AuthEndpoint)] /\
  Forall (fun w => ~ NoKeyAvailable w)
    (fst (serveAll [(AuthEndpoint, Sample.postExpired); (JwksEndpoint, getRequest);
                    (AuthEndpoint, Sample.post)] Sample.started)).
Proof.
  pose proof (main_serves_only_after_initKeys Sample.empty eq_refl) as Hmain.
  assert (Hrun : main Sample.empty =
                 (ListenAndServe ":8080"
                    [("/.well-known/jwks.json", JwksEndpoint); ("/auth", AuthEndpoint)],
                  Sample.started)) by reflexivity.
  rewrite Hrun in Hmain.
  destruct Hmain as (_ & _ & _ & vk & ek & _ & _ & Hserve).
  split; [reflexivity|]. apply Hserve.
Defined.

(** ** The record determines the public key *)
Section RecordInjective.
Import Base64 BigInt Base64Facts BigIntFacts.

Lemma decodeMap_lookup (v : Z) :
  0 <= v < 64 -> decodeMap encodeURL (lookup encodeURL v) = Some v.
Proof.
  intros Hv. rewrite <- (Z2Nat.id v) by lia.
  assert (Hn : (Z.to_nat v < 64)%nat) by lia.
  revert Hn. generalize (Z.to_nat v). clear. intros n Hn.
  do 64 (destruct n as [|n]; [reflexivity|]). lia.
Qed.

Lemma at_raw_inj (x y : Z) :
  at_ RawURLEncoding (Z.land x 63) = at_ RawURLEncoding (Z.land y 63) ->
  Z.land x 63 = Z.land y 63.
Proof.
  rewrite !at_raw. intros Heq.
  pose proof (decodeMap_lookup _ (sextet_range x)) as Hx.
  pose proof (decodeMap_lookup _ (sextet_range y)) as Hy.
  rewrite Heq in Hx. congruence.
Qed.

Lemma byte_of_bits (b : Z) : is_byte b -> b = bits_value (byte_bits b).
Proof.
  intros Hb. unfold is_byte in Hb. rewrite <- (Z2Nat.id b) by lia.
  assert (Hn : (Z.to_nat b < 256)%nat) by lia.
  revert Hn. generalize (Z.to_nat b). clear. intros n Hn.
  do 256 (destruct n as [|n]; [reflexivity|]). lia.
Qed.

Lemma byte_bits_inj (a b : Z) :
  is_byte a -> is_byte b -> byte_bits a = byte_bits b -> a = b.
Proof.
  intros Ha Hb Heq. rewrite (byte_of_bits a Ha), (byte_of_bits b Hb). now rewrite Heq.
Qed.

Lemma chunk3_bits (b0 b1 b2 : Z) :
  is_byte b0 -> is_byte b1 -> is_byte b2 ->
  let val := Z.lor (Z.lor (Z.shiftl b0 16) (Z.shiftl b1 8)) b2 in
  six (Z.land (Z.shiftr val 18) 63) ++ six (Z.land (Z.shiftr val 12) 63) ++
  six (Z.land (Z.shiftr val 6) 63) ++ six (Z.land val 63)
  = byte_bits b0 ++ byte_bits b1 ++ byte_bits b2.
Proof.
  intros H0 H1 H2. cbv zeta. rewrite !byte_bits_eq. unfold six. cbn [map app].
  conses; testbits.
Qed.

Lemma chunk2_bits (b0 b1 : Z) :
  is_byte b0 -> is_byte b1 ->
  let val := Z.lor (Z.shiftl b0 16) (Z.shiftl b1 8) in
  six (Z.land (Z.shiftr val 18) 63) ++ six (Z.land (Z.shiftr val 12) 63) ++
  firstn 4 (six (Z.land (Z.shiftr val 6) 63))
  = byte_bits b0 ++ byte_bits b1.
Proof.
  intros H0 H1. cbv zeta. rewrite !byte_bits_eq. unfold six. cbn [map app firstn].
  conses; testbits.
Qed.

Lemma chunk1_bits (b0 : Z) :
  is_byte b0 ->
  let val := Z.shiftl b0 16 in
  six (Z.land (Z.shiftr val 18) 63) ++ firstn 2 (six (Z.land (Z.shiftr val 12) 63))
  = byte_bits b0.
Proof.
  intros H0. cbv zeta. rewrite !byte_bits_eq. unfold six. cbn [map app firstn].
  conses; testbits.
Qed.

Lemma byte_bits_app_inj (a b : Z) (l l' : list bool) :
  is_byte a -> is_byte b -> byte_bits a ++ l = byte_bits b ++ l' -> a = b /\ l = l'.
Proof.
  intros Ha Hb Heq. apply app_inj_1 in Heq; [|reflexivity].
  destruct Heq as [Hbits Hl]. split; [|exact Hl]. now apply byte_bits_inj.
Qed.

Lemma Encode_raw_inj (a : list Z) :
  Forall is_byte a ->
  forall b, Forall is_byte b ->
  Encode RawURLEncoding a = Encode RawURLEncoding b -> a = b.
Proof.
  induction a as [|a0|a0 a1|a0 a1 a2 l IH] using list_ind3; intros Ha b Hb Heq.
  - destruct b as [|b0 [|b1 [|b2 b']]]; [reflexivity | discriminate Heq..].
  - destruct b as [|b0 [|b1 [|b2 b']]]; try discriminate Heq.
    cbn [Encode app pad padChar RawURLEncoding] in Heq.
    injection Heq as E0 E1. apply at_raw_inj in E0, E1.
    inversion Ha as [|? ? Ha0 _]; inversion Hb as [|? ? Hb0 _]; subst.
    pose proof (chunk1_bits a0 Ha0) as Pa. pose proof (chunk1_bits b0 Hb0) as Pb.
    cbv zeta in Pa, Pb. rewrite E0, E1, Pb in Pa. symmetry in Pa.
    f_equal. now apply byte_bits_inj.
  - destruct b as [|b0 [|b1 [|b2 b']]]; try discriminate Heq.
    cbn [Encode app pad padChar RawURLEncoding] in Heq.
    injection Heq as E0 E1 E2. apply at_raw_inj in E0, E1, E2.
    inversion Ha as [|? ? Ha0 Ha']; inversion Ha' as [|? ? Ha1 _];
      inversion Hb as [|? ? Hb0 Hb']; inversion Hb' as [|? ? Hb1 _]; subst.
    pose proof (chunk2_bits a0 a1 Ha0 Ha1) as Pa.
    pose proof (chunk2_bits b0 b1 Hb0 Hb1) as Pb.
    cbv zeta in Pa, Pb. rewrite E0, E1, E2, Pb in Pa. symmetry in Pa.
    apply byte_bits_app_inj in Pa; [|assumption..]. destruct Pa as [-> Pa].
    rewrite <- (app_nil_r (byte_bits a1)), <- (app_nil_r (byte_bits b1)) in Pa.
    apply byte_bits_app_inj in Pa; [|assumption..]. destruct Pa as [-> _].
    reflexivity.
  - destruct b as [|b0 [|b1 [|b2 b']]]; try discriminate Heq.
    cbn [Encode app] in Heq.
    injection Heq as E0 E1 E2 E3 Erest.
    apply at_raw_inj in E0, E1, E2, E3.
    inversion Ha as [|? ? Ha0 Ha']; inversion Ha' as [|? ? Ha1 Ha''];
      inversion Ha'' as [|? ? Ha2 Hl];
      inversion Hb as [|? ? Hb0 Hb']; inversion Hb' as [|? ? Hb1 Hb''];
      inversion Hb'' as [|? ? Hb2 Hl']; subst.
    pose proof (chunk3_bits a0 a1 a2 Ha0 Ha1 Ha2) as Pa.
    pose proof (chunk3_bits b0 b1 b2 Hb0 Hb1 Hb2) as Pb.
    cbv zeta in Pa, Pb. rewrite E0, E1, E2, E3, Pb in Pa. symmetry in Pa.
    apply byte_bits_app_inj in Pa; [|assumption..]. destruct Pa as [-> Pa].
    apply byte_bits_app_inj in Pa; [|assumption..]. destruct Pa as [-> Pa].
    rewrite <- (app_nil_r (byte_bits a2)), <- (app_nil_r (byte_bits b2)) in Pa.
    apply byte_bits_app_inj in Pa; [|assumption..]. destruct Pa as [-> _].
    f_equal. f_equal. f_equal. now apply IH.
Qed.

End RecordInjective.

Lemma EncodeToString_raw_inj (a b : list Z) :
  Forall BigInt.is_byte a -> Forall BigInt.is_byte b ->
  Base64.EncodeToString Base64.RawURLEncoding a
  = Base64.EncodeToString Base64.RawURLEncoding b ->
  a = b.
Proof.
  intros Ha Hb Heq. unfold Base64.EncodeToString in Heq.
  apply (f_equal list_ascii_of_string) in Heq.
  rewrite !list_ascii_of_string_of_list_ascii in Heq.
  now apply (Encode_raw_inj a Ha b Hb).
Qed.

Lemma Bytes_inj (x y : Z) : BigInt.Bytes x = BigInt.Bytes y -> Z.abs x = Z.abs y.
Proof.
  intros Heq. rewrite <- (BigIntFacts.Bytes_value x), <- (BigIntFacts.Bytes_value y).
  now rewrite Heq.
Qed.

(** A discovery record determines the key it stands for: two key pairs
    with the same record have the same identifier and moduli and exponents
    of the same magnitude, so the same public key when neither number is
    negative. The encoding of "n" and "e" loses nothing. *)
Theorem toJWK_determines_public_key (kp kp' : KeyPair) :
  toJWK kp = toJWK kp' ->
  Kid kp = Kid kp' /\
  Z.abs (Rsa.N (PublicKey kp)) = Z.abs (Rsa.N (PublicKey kp')) /\
  Z.abs (Rsa.E (PublicKey kp)) = Z.abs (Rsa.E (PublicKey kp')) /\
  (0 <= Rsa.N (PublicKey kp) -> 0 <= Rsa.E (PublicKey kp) ->
   0 <= Rsa.N (PublicKey kp') -> 0 <= Rsa.E (PublicKey kp') ->
   PublicKey kp = PublicKey kp').
Proof.
  intros Heq. unfold toJWK in Heq. injection Heq as Hk Hn He.
  apply EncodeToString_raw_inj in Hn; [|apply BigIntFacts.Bytes_is_byte..].
  apply EncodeToString_raw_inj in He; [|apply BigIntFacts.Bytes_is_byte..].
  apply Bytes_inj in Hn, He.
  split; [exact Hk|]. split; [exact Hn|]. split; [exact He|].
  intros H1 H2 H3 H4.
  destruct (PublicKey kp) as [n e], (PublicKey kp') as [n' e'].
  cbn [Rsa.N Rsa.E] in *. f_equal; lia.
Qed.

Lemma toJWK_determines_public_key_witness :
  Kid (withPrivateKey Sample.key2 Sample.active) = "kid-active" /\
  PublicKey (withPrivateKey Sample.key2 Sample.active)
  = {| Rsa.N := 3233; Rsa.E := 17 |}.
Proof.
  destruct (toJWK_determines_public_key
              (withPrivateKey Sample.key2 Sample.active) Sample.active eq_refl)
    as (Hkid & _ & _ & Hpub).
  split; [exact Hkid|].
  apply Hpub; vm_compute; discriminate.
Defined.

Lemma string_of_list_ascii_length (l : list ascii) :
  String.length (string_of_list_ascii l) = length l.
Proof. induction l as [|c l IH]; simpl; congruence. Qed.

Lemma Bytes_length (x : Z) (k : nat) :
  256 ^ Z.of_nat k <= Z.abs x < 256 ^ Z.of_nat (S k) ->
  length (BigInt.Bytes x) = S k.
Proof.
  intros [Hlo Hhi].
  pose proof (BigIntFacts.Bytes_is_byte x) as Hbytes.
  pose proof (BigIntFacts.Bytes_value x) as Hval.
  pose proof (BigIntFacts.be_value_bounds _ Hbytes) as Hup. rewrite Hval in Hup.
  assert (Hpos : 0 < 256 ^ Z.of_nat k) by (apply Z.pow_pos_nonneg; lia).
  destruct (BigInt.Bytes x) as [|b t] eqn:Hb.
  - cbn in Hup. lia.
  - pose proof (BigIntFacts.Bytes_head x b t Hb) as Hne.
    rewrite BigIntFacts.be_value_cons in Hval.
    inversion Hbytes as [|? ? Hb0 Ht]; subst.
    pose proof (BigIntFacts.be_value_bounds t Ht) as Ht'.
    unfold BigInt.is_byte in Hb0.
    assert (Hlow : 256 ^ Z.of_nat (length t) <= Z.abs x) by nia.
    assert (H1 : 256 ^ Z.of_nat k < 256 ^ Z.of_nat (length (b :: t))) by lia.
    assert (H2 : 256 ^ Z.of_nat (length t) < 256 ^ Z.of_nat (S k)) by lia.
    apply Z.pow_lt_mono_r_iff in H1; [|lia|lia].
    apply Z.pow_lt_mono_r_iff in H2; [|lia|lia].
    cbn [length] in *. lia.
Qed.

(** The size of the two numeric fields. A number whose magnitude needs
    k + 1 bytes is written with that many bytes and encoded in
    ceil (8 (k + 1) / 6) characters: the modulus of a 2048-bit key, as
    [generateKeyPair] asks for, takes 256 bytes and 342 characters. *)
Theorem toJWK_field_sizes (kp : KeyPair) :
  (forall k : nat,
     256 ^ Z.of_nat k <= Z.abs (Rsa.N (PublicKey kp)) < 256 ^ Z.of_nat (S k) ->
     length (BigInt.Bytes (Rsa.N (PublicKey kp))) = S k /\
     String.length (JN (toJWK kp)) = ((8 * S k + 5) / 6)%nat) /\
  (forall k : nat,
     256 ^ Z.of_nat k <= Z.abs (Rsa.E (PublicKey kp)) < 256 ^ Z.of_nat (S k) ->
     length (BigInt.Bytes (Rsa.E (PublicKey kp))) = S k /\
     String.length (JE (toJWK kp)) = ((8 * S k + 5) / 6)%nat) /\
  (2 ^ 2047 <= Rsa.N (PublicKey kp) < 2 ^ 2048 ->
     length (BigInt.Bytes (Rsa.N (PublicKey kp))) = 256%nat /\
     String.length (JN (toJWK kp)) = 342%nat).
Proof.
  assert (Hsize : forall v (k : nat),
             256 ^ Z.of_nat k <= Z.abs v < 256 ^ Z.of_nat (S k) ->
             length (BigInt.Bytes v) = S k /\
             String.length (Base64.EncodeToString Base64.RawURLEncoding (BigInt.Bytes v))
             = ((8 * S k + 5) / 6)%nat).
  { intros v k Hk. pose proof (Bytes_length v k Hk) as Hlen. split; [exact Hlen|].
    unfold Base64.EncodeToString.
    now rewrite string_of_list_ascii_length, Base64Facts.Encode_raw_length, Hlen. }
  split; [|split].
  - intros k Hk. now apply Hsize.
  - intros k Hk. now apply Hsize.
  - intros Hn.
    destruct (Hsize (Rsa.N (PublicKey kp)) 255%nat) as [Hlen Hstr].
    + change (256 ^ Z.of_nat 255) with (2 ^ 2040).
      change (256 ^ Z.of_nat 256) with (2 ^ 2048).
      assert (2 ^ 2040 <= 2 ^ 2047) by (apply Z.pow_le_mono_r; lia). lia.
    + split; [exact Hlen | exact Hstr].
Qed.

Lemma toJWK_field_sizes_witness :
  String.length
    (JN (toJWK {| Kid := "k"; PrivateKey := Sample.key1;
                  PublicKey := {| Rsa.N := 2 ^ 2047 + 1; Rsa.E := 65537 |};
                  ExpiresAt := 0 |})) = 342%nat /\
  String.length (JE (toJWK Sample.active)) = 2%nat.
Proof.
  destruct (toJWK_field_sizes {| Kid := "k"; PrivateKey := Sample.key1;
                                 PublicKey := {| Rsa.N := 2 ^ 2047 + 1; Rsa.E := 65537 |};
                                 ExpiresAt := 0 |}) as (_ & _ & H2048).
  destruct (toJWK_field_sizes Sample.active) as (_ & He & _).
  split.
  - apply H2048. cbn [PublicKey Rsa.N].
    split; [vm_compute; discriminate | vm_compute; reflexivity].
  - apply (He 0%nat).
    split; [vm_compute; discriminate | vm_compute; reflexivity].
Defined.

(** ** The shape of a discovery answer *)

(** Every GET request to [jwksHandler] is answered 200 with content type
    application/json and one JSON object whose only member is "keys".
    Each record under it is an object with exactly the members kty, kid,
    use, alg, n and e, in this order, where kty is RSA, use is sig, alg is
    RS256, and n and e hold no padding character. *)
Theorem discovery_answer_shape (s : State) :
  Http.status (discover s) = Some 200 /\
  contentType (discover s) = Some "application/json" /\
  (exists v, Http.body (discover s) = [Http.JsonDoc (Json.Obj [("keys", v)])]) /\
  (forall item, In item (records (discover s)) ->
     exists kid n e,
       item = Json.Obj [("kty", Json.Str "RSA"); ("kid", Json.Str kid);
                        ("use", Json.Str "sig"); ("alg", Json.Str "RS256");
                        ("n", Json.Str n); ("e", Json.Str e)] /\
       ~ hasChar Base64.StdPadding n /\ ~ hasChar Base64.StdPadding e).
Proof.
  split; [|split; [|split]].
  - unfold discover. rewrite jwksHandler_get by reflexivity.
    destruct (validKey (globals s)); reflexivity.
  - unfold discover. rewrite jwksHandler_get by reflexivity.
    destruct (validKey (globals s)); reflexivity.
  - unfold discover. rewrite jwksHandler_get by reflexivity.
    destruct (validKey (globals s)); eexists; reflexivity.
  - intros item Hin. rewrite discover_records in Hin.
    destruct (validKey (globals s)) as [vk|]; [|contradiction].
    destruct (Before _ _); [|contradiction].
    destruct Hin as [<- | []].
    exists (Kid vk), (JN (toJWK vk)), (JE (toJWK vk)).
    split; [reflexivity|].
    split; apply Base64Facts.EncodeToString_raw_no_padding.
Qed.

Lemma discovery_answer_shape_witness :
  exists kid n e,
    records (discover Sample.started)
    = [Json.Obj [("kty", Json.Str "RSA"); ("kid", Json.Str kid);
                 ("use", Json.Str "sig"); ("alg", Json.Str "RS256");
                 ("n", Json.Str n); ("e", Json.Str e)]].
Proof.
  destruct (discovery_answer_shape Sample.started) as (_ & _ & _ & Hrec).
  destruct (Hrec (marshalJWK (toJWK Sample.active))) as (kid & n & e & Hitem & _).
  - left. reflexivity.
  - exists kid, n, e. rewrite <- Hitem. reflexivity.
Defined.


